(** * SmallVCM: the render harness of [smallvcm.cxx]

    A shallow embedding of [struct Config], [render] and the batch sweep of
    [main], with the properties of the dispatch / aggregation harness.

    Conventions of the embedding.
    - [int] values are [Z]; [int] addition wraps to 32 bits ([int_add]).
    - The array [renderers] is a list of optional instances: [None] is an
      indeterminate (or deleted) pointer; dereferencing it, indexing out of
      the array, or allocating a negative length has no defined result
      and makes the run [None].
    - [render] is a program in a small state monad [M] over the machine
      state (the array, the caller's framebuffer, the history of calls).
    - [#pragma omp parallel for] is a linearised schedule supplied by the
      environment: a list of (thread number, iteration index) pairs.
    - The headers ([renderer.hxx], [framebuffer.hxx], [scene.hxx], ...) are
      declared outside [smallvcm.cxx]; what [render] needs from them is the
      class [Externals] or is modelled from the specification and marked. *)

From Stdlib Require Import ZArith QArith Lia.
From stdpp Require Import base tactics option list numbers strings.

Local Open Scope Z_scope.

(** ** 32-bit [int] arithmetic *)

Definition INT_MAX : Z := 2147483647.
Definition INT_MIN : Z := -2147483648.

Definition is_int (z : Z) : Prop := INT_MIN <= z <= INT_MAX.

(** Two's complement wrap-around of a mathematical integer into [int]. *)
Definition int_wrap (z : Z) : Z := (z + 2 ^ 31) mod 2 ^ 32 - 2 ^ 31.

Definition int_add (a b : Z) : Z := int_wrap (a + b).

(** [for (int i = 0; i < n; i++)]: the values [i] takes, as array slots and
    as [int]s.  The counter never leaves [0 .. n-1], so [i++] cannot wrap. *)
Definition slots (n : Z) : list nat := seq 0 (Z.to_nat n).
Definition iteration_space (n : Z) : list Z := Z.of_nat <$> slots n.

(** ** [struct Config] *)

(** What a [const char*] returning lookup yields: a string of the table, or
    a read past the end of the table (no defined result). *)
Inductive c_str : Type :=
| Str (s : string)
| PastTheEnd (index : Z) (table_size : nat).

Module Config.

Inductive Algorithm : Type :=
| kEyeLight
| kPathTracing
| kLightTracing
| kProgressivePhotonMapping
| kBidirectionalPhotonMapping
| kBidirectionalPathTracing
| kVertexConnectionMerging
| kAlgorithmMax.

(** The integer value of an enumerator. *)
Definition value (a : Algorithm) : Z :=
  match a with
  | kEyeLight => 0
  | kPathTracing => 1
  | kLightTracing => 2
  | kProgressivePhotonMapping => 3
  | kBidirectionalPhotonMapping => 4
  | kBidirectionalPathTracing => 5
  | kVertexConnectionMerging => 6
  | kAlgorithmMax => 7
  end.

(** The fields [render] reads.  [mScene] is the same read-only scene in
    every constructor call and is part of [Externals]; [mFramebuffer]
    points to the caller's buffer, which lives in the machine state. *)
Record t : Type := Build {
  mAlgorithm : Algorithm;
  mIterations : Z;
  mNumThreads : Z;
  mBaseSeed : Z;
  mMaxPathLength : Z
}.

Definition algorithmNames : list string :=
  [ "Eye Light (L.N, DotLN)";
    "Path Tracing";
    "Light Tracing";
    "Progressive Photon Mapping";
    "Bidirectional Photon Mapping";
    "Bidirectional Path Tracing";
    "Vertex Connection Merging" ]%string.

Definition algorithmAcronyms : list string :=
  [ "el"; "pt"; "lt"; "ppm"; "bpm"; "bpt"; "vcm" ]%string.

(** [table[index]] for a static table of strings. *)
Definition index_table (table : list string) (index : Z) : c_str :=
  match table !! Z.to_nat index with
  | Some s => Str s
  | None => PastTheEnd index (length table)
  end.

(** The body of [GetName] at the integer value of [mAlgorithm]. *)
Definition GetName_at (mAlgorithm : Z) : c_str :=
  if (mAlgorithm <? 0) || (mAlgorithm >? 7)
  then Str "Uknown algorithm"
  else index_table algorithmNames mAlgorithm.

(** The body of [GetAcronym] at the integer value of [mAlgorithm]. *)
Definition GetAcronym_at (mAlgorithm : Z) : c_str :=
  if (mAlgorithm <? 0) || (mAlgorithm >? 7)
  then Str "uknown"
  else index_table algorithmAcronyms mAlgorithm.

Definition GetName (c : t) : c_str := GetName_at (value (mAlgorithm c)).
Definition GetAcronym (c : t) : c_str := GetAcronym_at (value (mAlgorithm c)).

End Config.

(** ** The renderers *)

Module VertexCM.

(** [VertexCM::AlgorithmType], the transport modes [render] passes. *)
Inductive AlgorithmType : Type :=
| kLightTrace
| kPpm
| kBpm
| kBpt
| kVcm.

End VertexCM.

(** The three constructor calls of [render], with the seed argument where
    the call passes one (the [new EyeLight] call passes the scene only). *)
Inductive Construction : Type :=
| EyeLight
| PathTracer (aSeed : Z)
| VertexCM (aAlgorithm : VertexCM.AlgorithmType) (aSeed : Z).

(** The seed a constructor call was given, if any. *)
Definition seed_argument (k : Construction) : option Z :=
  match k with
  | EyeLight => None
  | PathTracer aSeed => Some aSeed
  | VertexCM _ aSeed => Some aSeed
  end.

Module AbstractRenderer.

(** Modelled from the spec: the class is declared in [renderer.hxx].  A
    renderer instance is an opaque stateful simulator with the capability
    set (execute iteration, is used, extract buffer, set max path length);
    it is represented freely, by how it was constructed, its current
    [mMaxPathLength] and the iteration indices it was run on, oldest
    first.  Any deterministic simulator is a function of these. *)
Record t : Type := Build {
  construction : Construction;
  mMaxPathLength : Z;
  iterations_run : list Z
}.

(** Modelled from the spec: execute one iteration given an index. *)
Definition RunIteration (aIteration : Z) (r : t) : t :=
  {| construction := construction r;
     mMaxPathLength := mMaxPathLength r;
     iterations_run := iterations_run r ++ [aIteration] |}.

(** Modelled from the spec: the used flag is false until the first
    iteration executes. *)
Definition WasUsed (r : t) : bool :=
  match iterations_run r with
  | [] => false
  | _ :: _ => true
  end.

(** [renderers[i]->mMaxPathLength = v]. *)
Definition set_mMaxPathLength (v : Z) (r : t) : t :=
  {| construction := construction r;
     mMaxPathLength := v;
     iterations_run := iterations_run r |}.

End AbstractRenderer.

(** What [render] uses and [smallvcm.cxx] does not define. *)
Class Externals : Type := {
  (** [float] with the conversions and the division [render] performs *)
  float : Type;
  float_one : float;
  float_of_int : Z -> float;
  float_div : float -> float -> float;
  (** a pixel of a framebuffer ([Vec3f]) with its sum and scaling *)
  Vec3f : Type;
  Vec3f_add : Vec3f -> Vec3f -> Vec3f;
  Vec3f_scale : Vec3f -> float -> Vec3f;
  (** [CLOCKS_PER_SEC] of [<time.h>] *)
  CLOCKS_PER_SEC : Z;
  (** [mMaxPathLength] as the renderer constructors leave it *)
  constructed_mMaxPathLength : Z;
  (** the buffer [GetFramebuffer] extracts from an instance, over the scene
      [aConfig.mScene] of the run *)
  extract : AbstractRenderer.t -> list Vec3f
}.

(** [Framebuffer]: the pixels [mColor], row after row. *)
Abbreviation Framebuffer := (list Vec3f).

(** ** The batch sweep of [main] *)

(** The [Scene::BoxMask] flags [main] uses; their values are those of
    [scene.hxx]. *)
Class BoxMask : Type := {
  kLightCeiling : Z;
  kLightSun : Z;
  kLightPoint : Z;
  kLightBackground : Z;
  kBothSmallBalls : Z;
  kBallLargeMirror : Z;
  kGlossyFloor : Z
}.

Record SceneConfig : Type := {
  mMask : Z;
  mName : string;
  mAcronym : string
}.

Section Sweep.
Context {flags : BoxMask}.

Definition sceneConfigs : list SceneConfig :=
  [ Build_SceneConfig kLightCeiling "Empty + Ceiling" "ec";
    Build_SceneConfig kLightSun "Empty + Sun" "es";
    Build_SceneConfig kLightPoint "Empty + Point" "ep";
    Build_SceneConfig kLightBackground "Empty + Background" "eb";
    Build_SceneConfig (Z.lor kBothSmallBalls kLightCeiling) "Small balls + Ceiling" "sbc";
    Build_SceneConfig (Z.lor kBothSmallBalls kLightSun) "Small balls + Sun" "sbs";
    Build_SceneConfig (Z.lor kBothSmallBalls kLightPoint) "Small balls + Point" "sbp";
    Build_SceneConfig (Z.lor kBothSmallBalls kLightBackground) "Small balls + Background" "sbb";
    Build_SceneConfig (Z.lor kBallLargeMirror kLightCeiling) "Large mirror ball + Ceiling" "lbc";
    Build_SceneConfig (Z.lor kBallLargeMirror kLightSun) "Large mirror ball + Sun" "lbs";
    Build_SceneConfig (Z.lor kBallLargeMirror kLightPoint) "Large mirror ball + Point" "lbp";
    Build_SceneConfig (Z.lor kBallLargeMirror kLightBackground) "Large mirror ball + Background" "lbb" ].

(** [sizeof(sceneConfigs) / sizeof(SceneConfig)] *)
Definition sceneConfigCount : Z := Z.of_nat (length sceneConfigs).

(** [sceneId2 % sceneConfigCount]: [%] on [int] truncates toward zero. *)
Definition sceneId_of (sceneId2 : Z) : Z := Z.rem sceneId2 sceneConfigCount.

(** The guard [sceneId < sceneConfigCount] of the glossy-floor flag. *)
Definition glossy_guard (sceneId2 : Z) : bool :=
  sceneId_of sceneId2 <? sceneConfigCount.

(** The [mask] handed to [LoadCornellBox] on pass [sceneId2] of the sweep:
    [None] if [sceneConfigs[sceneId]] is outside the array. *)
Definition sweep_mask (sceneId2 : Z) : option Z :=
  let sceneId := sceneId_of sceneId2 in
  match sceneConfigs !! Z.to_nat sceneId with
  | Some sc =>
      let mask := mMask sc in
      Some (if sceneId <? sceneConfigCount then Z.lor mask kGlossyFloor else mask)
  | None => None
  end.

(** The masks of all passes
    [for (sceneId2 = 0; sceneId2 < sceneConfigCount * 2; sceneId2++)]. *)
Definition sweep_masks : list (option Z) :=
  sweep_mask <$> iteration_space (sceneConfigCount * 2).

End Sweep.

(** ** The machine [render] runs on *)

Section Render.
Context {ext : Externals}.

(** Modelled from the spec: [Framebuffer::Add] adds the other buffer
    elementwise into this one ([framebuffer.hxx] is declared elsewhere).
    Both buffers of a run have the resolution of the scene; pixels of this
    buffer beyond the other's length are kept. *)
Fixpoint Add (self aOther : Framebuffer) : Framebuffer :=
  match self, aOther with
  | c :: self', o :: aOther' => Vec3f_add c o :: Add self' aOther'
  | _, _ => self
  end.

(** Modelled from the spec: [Framebuffer::Scale] rescales every element. *)
Definition Scale (aScale : float) (self : Framebuffer) : Framebuffer :=
  (fun c => Vec3f_scale c aScale) <$> self.

(** The calls a run makes, in the order it makes them. *)
Inductive Event : Type :=
| EvNew (i : nat) (k : Construction)
| EvSetMaxPathLength (i : nat) (v : Z)
| EvClock
| EvRunIteration (threadId : nat) (iter : Z)
| EvWasUsed (i : nat) (used : bool)
| EvGetFramebuffer (i : nat)
| EvAdd (i : nat)
| EvScale (aScale : float)
| EvDelete (i : nat).

Record Machine : Type := {
  (** the array [renderers] *)
  renderers : list (option AbstractRenderer.t);
  (** the buffer [aConfig.mFramebuffer] points to *)
  mFramebuffer : Framebuffer;
  (** the calls made so far, oldest first *)
  history : list Event
}.

(** What the run takes from outside: how OpenMP schedules a loop of a
    given trip count (thread number and index of each execution, in a
    linearised order), and what [clock()] returns after a given history. *)
Record Env : Type := {
  omp_schedule : Z -> list (nat * Z);
  clock : list Event -> Z
}.

(** The work-sharing contract of [omp parallel for] with a team of at
    most [numThreads] threads over [iterations] logical iterations: every
    logical iteration is executed once, by a thread of the team. *)
Definition omp_conforming (env : Env) (numThreads iterations : Z) : Prop :=
  (omp_schedule env iterations).*2 ≡ₚ iteration_space iterations /\
  Forall (fun e : nat * Z => (e.1 < Z.to_nat numThreads)%nat)
         (omp_schedule env iterations).

(** *** The state monad *)

Definition M (A : Type) : Type := Machine -> option (A * Machine).

Definition ret {A} (a : A) : M A := fun m => Some (a, m).

Definition bind {A B} (c : M A) (k : A -> M B) : M B :=
  fun m => match c m with
           | Some (a, m') => k a m'
           | None => None
           end.

Notation "'do' x <- c ; k" := (bind c (fun x => k))
  (at level 10, x name, c at level 100, k at level 200).
Notation "c ;; k" := (bind c (fun _ => k))
  (at level 100, k at level 200, right associativity).

Definition emit (e : Event) : M unit :=
  fun m => Some (tt, {| renderers := renderers m;
                        mFramebuffer := mFramebuffer m;
                        history := history m ++ [e] |}).

(** [renderers[i] = p] *)
Definition store (i : nat) (p : option AbstractRenderer.t) : M unit :=
  fun m => if decide (i < length (renderers m))%nat
           then Some (tt, {| renderers := <[i := p]> (renderers m);
                             mFramebuffer := mFramebuffer m;
                             history := history m |})
           else None.

(** the instance [renderers[i]] points to *)
Definition deref (i : nat) : M AbstractRenderer.t :=
  fun m => match renderers m !! i with
           | Some (Some r) => Some (r, m)
           | _ => None
           end.

Definition read_framebuffer : M Framebuffer :=
  fun m => Some (mFramebuffer m, m).

Definition write_framebuffer (fb : Framebuffer) : M unit :=
  fun m => Some (tt, {| renderers := renderers m;
                        mFramebuffer := fb;
                        history := history m |}).

(** A loop over the values of its counter. *)
Fixpoint for_each {X} (l : list X) (body : X -> M unit) : M unit :=
  match l with
  | [] => ret tt
  | x :: l' => body x ;; for_each l' body
  end.

(** A loop that also updates a local variable. *)
Fixpoint for_fold {X S} (l : list X) (s : S) (body : X -> S -> M S) : M S :=
  match l with
  | [] => ret s
  | x :: l' => do s' <- body x s; for_fold l' s' body
  end.

(** *** The statements of [render] *)

(** [renderers = new AbstractRendererPtr[n]]: [n] indeterminate pointers. *)
Definition new_array (n : Z) : M unit :=
  fun m => if n <? 0 then None
           else Some (tt, {| renderers := replicate (Z.to_nat n) None;
                             mFramebuffer := mFramebuffer m;
                             history := history m |}).

(** Modelled from the spec: a constructor leaves the instance unused. *)
Definition constructed (k : Construction) : AbstractRenderer.t :=
  {| AbstractRenderer.construction := k;
     AbstractRenderer.mMaxPathLength := constructed_mMaxPathLength;
     AbstractRenderer.iterations_run := [] |}.

(** [renderers[i] = new ...] *)
Definition new_renderer (i : nat) (k : Construction) : M unit :=
  emit (EvNew i k) ;; store i (Some (constructed k)).

(** [for (i ...) renderers[i] = new ...] with the arguments [k i]. *)
Definition construct_all (numThreads : Z) (k : nat -> Construction) : M unit :=
  for_each (slots numThreads) (fun i => new_renderer i (k i)).

(** The [switch] on [aConfig.mAlgorithm] (lines 81-120); the value is the
    local [iterations] after it.  No case matches [kAlgorithmMax]. *)
Definition construct_renderers (aConfig : Config.t) : M Z :=
  let n := Config.mNumThreads aConfig in
  let seed (i : nat) := int_add (Config.mBaseSeed aConfig) (Z.of_nat i) in
  let iterations := Config.mIterations aConfig in
  match Config.mAlgorithm aConfig with
  | Config.kEyeLight =>
      construct_all n (fun _ => EyeLight) ;;
      ret 1
  | Config.kPathTracing =>
      construct_all n (fun i => PathTracer (seed i)) ;;
      ret iterations
  | Config.kLightTracing =>
      construct_all n (fun i => VertexCM VertexCM.kLightTrace (seed i)) ;;
      ret iterations
  | Config.kProgressivePhotonMapping =>
      construct_all n (fun i => VertexCM VertexCM.kPpm (seed i)) ;;
      ret iterations
  | Config.kBidirectionalPhotonMapping =>
      construct_all n (fun i => VertexCM VertexCM.kBpm (seed i)) ;;
      ret iterations
  | Config.kBidirectionalPathTracing =>
      construct_all n (fun i => VertexCM VertexCM.kBpt (seed i)) ;;
      ret iterations
  | Config.kVertexConnectionMerging =>
      construct_all n (fun i => VertexCM VertexCM.kVcm (seed i)) ;;
      ret iterations
  | Config.kAlgorithmMax =>
      ret iterations
  end.

(** [renderers[i]->mMaxPathLength = aConfig.mMaxPathLength] (line 123) *)
Definition assign_mMaxPathLength (v : Z) (i : nat) : M unit :=
  do r <- deref i;
  emit (EvSetMaxPathLength i v) ;;
  store i (Some (AbstractRenderer.set_mMaxPathLength v r)).

(** [clock()] *)
Definition read_clock (env : Env) : M Z :=
  fun m => Some (clock env (history m),
                 {| renderers := renderers m;
                    mFramebuffer := mFramebuffer m;
                    history := history m ++ [EvClock] |}).

(** The body of the parallel loop (lines 129-130), executed by thread
    [threadId] for the index [iter]. *)
Definition run_one (e : nat * Z) : M unit :=
  let threadId := e.1 in
  let iter := e.2 in
  do r <- deref threadId;
  emit (EvRunIteration threadId iter) ;;
  store threadId (Some (AbstractRenderer.RunIteration iter r)).

(** The parallel loop (lines 126-131), as OpenMP schedules it. *)
Definition run_iterations (env : Env) (iterations : Z) : M unit :=
  for_each (omp_schedule env iterations) run_one.

(** The body of the merge loop (lines 137-148); the value is the local
    [usedRenderers] after it. *)
Definition merge_one (i : nat) (usedRenderers : Z) : M Z :=
  do r <- deref i;
  emit (EvWasUsed i (AbstractRenderer.WasUsed r)) ;;
  if negb (AbstractRenderer.WasUsed r) then ret usedRenderers
  else
    (if usedRenderers =? 0
     then emit (EvGetFramebuffer i) ;;
          write_framebuffer (extract r)
     else emit (EvGetFramebuffer i) ;;
          let tmp := extract r in
          emit (EvAdd i) ;;
          do fb <- read_framebuffer;
          write_framebuffer (Add fb tmp)) ;;
    ret (int_add usedRenderers 1).

(** The merge loop and the final scaling (lines 134-151); the value is
    the final [usedRenderers]. *)
Definition merge (numThreads : Z) : M Z :=
  do usedRenderers <- for_fold (slots numThreads) 0 merge_one;
  let aScale := float_div float_one (float_of_int usedRenderers) in
  emit (EvScale aScale) ;;
  do fb <- read_framebuffer;
  write_framebuffer (Scale aScale fb) ;;
  ret usedRenderers.

(** [delete renderers[i]] *)
Definition delete_renderer (i : nat) : M unit :=
  do _ <- deref i;
  emit (EvDelete i) ;;
  store i None.

(** [delete [] renderers] *)
Definition delete_array : M unit :=
  fun m => Some (tt, {| renderers := [];
                        mFramebuffer := mFramebuffer m;
                        history := history m |}).

(** Lines 75-123: the array, the instances, their path-length bound.
    The value is the local [iterations]. *)
Definition setup (aConfig : Config.t) : M Z :=
  let n := Config.mNumThreads aConfig in
  new_array n ;;
  do iterations <- construct_renderers aConfig;
  for_each (slots n) (assign_mMaxPathLength (Config.mMaxPathLength aConfig)) ;;
  ret iterations.

(** Lines 125-132: the timed parallel loop.  The value is the pair of
    clock readings [(startT, endT)]. *)
Definition timed_dispatch (env : Env) (iterations : Z) : M (Z * Z) :=
  do startT <- read_clock env;
  run_iterations env iterations ;;
  do endT <- read_clock env;
  ret (startT, endT).

(** Lines 153-155 *)
Definition teardown (numThreads : Z) : M unit :=
  for_each (slots numThreads) delete_renderer ;;
  delete_array.

(** [float(endT - startT) / CLOCKS_PER_SEC] *)
Definition elapsed (startT endT : Z) : float :=
  float_div (float_of_int (endT - startT)) (float_of_int CLOCKS_PER_SEC).

(** [float render(const Config &aConfig)] *)
Definition render (env : Env) (aConfig : Config.t) : M float :=
  do iterations <- setup aConfig;
  do t <- timed_dispatch env iterations;
  merge (Config.mNumThreads aConfig) ;;
  teardown (Config.mNumThreads aConfig) ;;
  ret (elapsed t.1 t.2).

(** The machine a call of [render] starts on: no array yet, the caller's
    framebuffer as it stands. *)
Definition entry (fb : Framebuffer) : Machine :=
  {| renderers := []; mFramebuffer := fb; history := [] |}.

End Render.

(** ** Summaries of the phases of [render]

    Pure functions that say what each loop of [render] computes; the
    lemmas below prove that the monadic program computes exactly these. *)

Section Summaries.
Context {ext : Externals}.

(** [aConfig] with another iteration budget. *)
Definition set_mIterations (n : Z) (aConfig : Config.t) : Config.t :=
  {| Config.mAlgorithm := Config.mAlgorithm aConfig;
     Config.mIterations := n;
     Config.mNumThreads := Config.mNumThreads aConfig;
     Config.mBaseSeed := Config.mBaseSeed aConfig;
     Config.mMaxPathLength := Config.mMaxPathLength aConfig |}.

(** The constructor call the [switch] makes for slot [i], if it has a
    case for the selector. *)
Definition construction_of (aConfig : Config.t) : option (nat -> Construction) :=
  let seed (i : nat) := int_add (Config.mBaseSeed aConfig) (Z.of_nat i) in
  match Config.mAlgorithm aConfig with
  | Config.kEyeLight => Some (fun _ => EyeLight)
  | Config.kPathTracing => Some (fun i => PathTracer (seed i))
  | Config.kLightTracing => Some (fun i => VertexCM VertexCM.kLightTrace (seed i))
  | Config.kProgressivePhotonMapping => Some (fun i => VertexCM VertexCM.kPpm (seed i))
  | Config.kBidirectionalPhotonMapping => Some (fun i => VertexCM VertexCM.kBpm (seed i))
  | Config.kBidirectionalPathTracing => Some (fun i => VertexCM VertexCM.kBpt (seed i))
  | Config.kVertexConnectionMerging => Some (fun i => VertexCM VertexCM.kVcm (seed i))
  | Config.kAlgorithmMax => None
  end.

(** The local [iterations] after the [switch]. *)
Definition effective_iterations (aConfig : Config.t) : Z :=
  match Config.mAlgorithm aConfig with
  | Config.kEyeLight => 1
  | _ => Config.mIterations aConfig
  end.

(** The instances when the parallel loop starts. *)
Definition prepared (aConfig : Config.t) (k : nat -> Construction)
  : list AbstractRenderer.t :=
  (fun i => AbstractRenderer.set_mMaxPathLength (Config.mMaxPathLength aConfig)
              (constructed (k i)))
    <$> slots (Config.mNumThreads aConfig).

(** The history of lines 75-123. *)
Definition setup_history (aConfig : Config.t) (k : nat -> Construction)
  : list Event :=
  ((fun i => EvNew i (k i)) <$> slots (Config.mNumThreads aConfig)) ++
  ((fun i => EvSetMaxPathLength i (Config.mMaxPathLength aConfig))
     <$> slots (Config.mNumThreads aConfig)).

(** The instances after the executions [sched] of the loop body. *)
Definition run_schedule (sched : list (nat * Z)) (rs : list AbstractRenderer.t)
  : list AbstractRenderer.t :=
  foldl (fun rs e => alter (AbstractRenderer.RunIteration e.2) e.1 rs) rs sched.

Definition run_event (e : nat * Z) : Event := EvRunIteration e.1 e.2.

(** The [RunIteration] calls of a history: thread number and index. *)
Definition run_calls (h : list Event) : list (nat * Z) :=
  omap (fun ev => match ev with
                  | EvRunIteration threadId iter => Some (threadId, iter)
                  | _ => None
                  end) h.

(** The instances the parallel loop leaves behind in a run. *)
Definition dispatched (env : Env) (aConfig : Config.t) (k : nat -> Construction)
  : list AbstractRenderer.t :=
  run_schedule (omp_schedule env (effective_iterations aConfig)) (prepared aConfig k).

(** The merge loop over the instances [rs]: the framebuffer and
    [usedRenderers] after it. *)
Fixpoint merge_loop (rs : list AbstractRenderer.t) (fb : Framebuffer) (usedRenderers : Z)
  : Framebuffer * Z :=
  match rs with
  | [] => (fb, usedRenderers)
  | r :: rs' =>
      if AbstractRenderer.WasUsed r
      then merge_loop rs'
             (if usedRenderers =? 0 then extract r else Add fb (extract r))
             (int_add usedRenderers 1)
      else merge_loop rs' fb usedRenderers
  end.

(** The history of the merge loop over [rs], from slot [i] on. *)
Fixpoint merge_events (i : nat) (rs : list AbstractRenderer.t) (usedRenderers : Z)
  : list Event :=
  match rs with
  | [] => []
  | r :: rs' =>
      EvWasUsed i (AbstractRenderer.WasUsed r) ::
      (if AbstractRenderer.WasUsed r
       then (if usedRenderers =? 0
             then [EvGetFramebuffer i]
             else [EvGetFramebuffer i; EvAdd i])
            ++ merge_events (S i) rs' (int_add usedRenderers 1)
       else merge_events (S i) rs' usedRenderers)
  end.

(** [1.f / usedRenderers] *)
Definition normalisation (usedRenderers : Z) : float :=
  float_div float_one (float_of_int usedRenderers).

(** Events of the phases before and after the parallel loop. *)
Definition is_run_event (ev : Event) : bool :=
  match ev with EvRunIteration _ _ => true | _ => false end.

Definition is_setup_event (ev : Event) : bool :=
  match ev with EvNew _ _ | EvSetMaxPathLength _ _ => true | _ => false end.

Definition is_merge_or_teardown_event (ev : Event) : bool :=
  match ev with
  | EvWasUsed _ _ | EvGetFramebuffer _ | EvAdd _ | EvScale _ | EvDelete _ => true
  | _ => false
  end.

(** *** The aggregation as the specification words it *)

Inductive RunError : Type := EmptyResultError.

(** U, the instances with used = true, in slot order. *)
Definition used_instances (rs : list AbstractRenderer.t) : list AbstractRenderer.t :=
  filter (fun r => AbstractRenderer.WasUsed r = true) rs.

(** The first element of U replaces the aggregate, each remaining element
    of U is added elementwise, every element is scaled by 1/|U|; an empty
    U is an error. *)
Definition aggregate_spec (rs : list AbstractRenderer.t) : RunError + Framebuffer :=
  match used_instances rs with
  | [] => inl EmptyResultError
  | first :: rest =>
      inr (Scale (float_div float_one
                    (float_of_int (Z.of_nat (length (first :: rest)))))
             (foldl (fun fb r => Add fb (extract r)) (extract first) rest))
  end.

(** The seed each slot of the array was constructed with. *)
Definition assigned_seeds (m : Machine) : list (option Z) :=
  (fun p : option AbstractRenderer.t =>
     match p with
     | Some r => seed_argument (AbstractRenderer.construction r)
     | None => None
     end) <$> renderers m.

(** The instance [r] after it also ran the iterations [more]. *)
Definition ran_also (more : list Z) (r : AbstractRenderer.t) : AbstractRenderer.t :=
  {| AbstractRenderer.construction := AbstractRenderer.construction r;
     AbstractRenderer.mMaxPathLength := AbstractRenderer.mMaxPathLength r;
     AbstractRenderer.iterations_run := AbstractRenderer.iterations_run r ++ more |}.

(** The indices thread [j] executes in a schedule, in order. *)
Definition indices_of_thread (j : nat) (sched : list (nat * Z)) : list Z :=
  (filter (fun e : nat * Z => e.1 = j) sched).*2.

(** What the caller of [render] observes: the buffer and the duration, or
    no defined result. *)
Definition observe (outcome : option (float * Machine)) : option (Framebuffer * float) :=
  match outcome with
  | Some (t, m) => Some (mFramebuffer m, t)
  | None => None
  end.

End Summaries.

(** ** A stand-in for the externals, over the rationals

    Exact rational arithmetic in place of [float], and a simulator whose
    buffer holds, pixel after pixel, the indices of the iterations it ran.
    It serves to run the harness on concrete inputs. *)

Definition rational_film (r : AbstractRenderer.t) : list Q :=
  inject_Z <$> AbstractRenderer.iterations_run r.

#[global] Instance rational : Externals := {|
  float := Q;
  float_one := 1%Q;
  float_of_int := inject_Z;
  float_div := fun a b => Qred (a / b)%Q;
  Vec3f := Q;
  Vec3f_add := fun a b => Qred (a + b)%Q;
  Vec3f_scale := fun c s => Qred (c * s)%Q;
  CLOCKS_PER_SEC := 1000000;
  constructed_mMaxPathLength := 2;
  extract := rational_film
|}.

(** An environment that deals the indices of a loop to [numThreads]
    threads in turn, and whose clock counts the calls made so far. *)
Definition cyclic {ext : Externals} (numThreads : nat) : Env :=
  {| omp_schedule := fun iterations =>
       (fun i => (i mod numThreads, Z.of_nat i)%nat) <$> slots iterations;
     clock := fun h => Z.of_nat (length h) |}.

(** The same assignment of indices to threads, with the threads running
    one after the other instead of in turn. *)
Definition by_thread {ext : Externals} (numThreads : nat) : Env :=
  {| omp_schedule := fun iterations =>
       concat ((fun j => filter (fun e : nat * Z => e.1 = j)
                           (omp_schedule (cyclic numThreads) iterations))
                 <$> seq 0 numThreads);
     clock := fun h => Z.of_nat (length h) |}.

(** The settings of [main] (base seed 1234, path length 10) for a given
    algorithm and iteration budget, on two threads. *)
Definition sample_config (a : Config.Algorithm) (iterations : Z) : Config.t :=
  {| Config.mAlgorithm := a;
     Config.mIterations := iterations;
     Config.mNumThreads := 2;
     Config.mBaseSeed := 1234;
     Config.mMaxPathLength := 10 |}.

Definition path_tracer_seeds (i : nat) : Construction :=
  PathTracer (int_add 1234 (Z.of_nat i)).

(** An instance that ran the iterations [log]. *)
Definition ran (k : Construction) (log : list Z) : AbstractRenderer.t :=
  {| AbstractRenderer.construction := k;
     AbstractRenderer.mMaxPathLength := 10;
     AbstractRenderer.iterations_run := log |}.

(** The flags of [scene.hxx] as powers of two, to run the sweep. *)
Definition sample_flags : BoxMask :=
  {| kLightCeiling := 1;
     kLightSun := 2;
     kLightPoint := 4;
     kLightBackground := 8;
     kBothSmallBalls := 192;
     kBallLargeMirror := 16;
     kGlossyFloor := 512 |}.

(** ** The driver [main] *)

(** [a - b] on [int]. *)
Definition int_sub (a b : Z) : Z := int_wrap (a - b).

(** [std::max(1, omp_get_num_procs()-1)], for the value [num_procs] that
    [omp_get_num_procs()] returns. *)
Definition main_numThreads (num_procs : Z) : Z := Z.max 1 (int_sub num_procs 1).

(** [Config::Algorithm(v)]: the enumerator with the value [v]; a value that
    no enumerator has gives no defined selector. *)
Definition Algorithm_of_value (v : Z) : option Config.Algorithm :=
  match v with
  | 0 => Some Config.kEyeLight
  | 1 => Some Config.kPathTracing
  | 2 => Some Config.kLightTracing
  | 3 => Some Config.kProgressivePhotonMapping
  | 4 => Some Config.kBidirectionalPhotonMapping
  | 5 => Some Config.kBidirectionalPathTracing
  | 6 => Some Config.kVertexConnectionMerging
  | 7 => Some Config.kAlgorithmMax
  | _ => None
  end.

(** The [config] of [main] (lines 203-208) once [mAlgorithm] is set.  The
    iteration budget is the constant 10: [base_iterations], which holds the
    command-line argument, is never read. *)
Definition main_config (numThreads : Z) (a : Config.Algorithm) : Config.t :=
  {| Config.mAlgorithm := a;
     Config.mIterations := 10;
     Config.mNumThreads := numThreads;
     Config.mBaseSeed := 1234;
     Config.mMaxPathLength := 10 |}.

(** [int algorithmMask[7]] *)
Definition algorithmMask : list Z := [1; 1; 1; 1; 1; 1; 1].

(** [sceneFilename + "_" + config.GetAcronym() + ".bmp"]; there is no
    defined name when the acronym was read past its table. *)
Definition bmp_filename (sceneFilename : string) (acronym : c_str) : option string :=
  match acronym with
  | Str a => Some (sceneFilename +:+ "_" +:+ a +:+ ".bmp")
  | PastTheEnd _ _ => None
  end.

(** What one execution of the inner loop body of [main] does: the scene
    mask, the heading written to the report for the pass, the
    configuration [render] is called with, the name [GetName] returns for
    the console and the report, and the image file written. *)
Record RenderCall : Type := {
  call_mask : Z;
  call_heading : string;
  call_config : Config.t;
  call_name : string;
  call_filename : string
}.

Inductive Step : Type :=
| Skipped
| Rendered (c : RenderCall).

Section Main.
Context {flags : BoxMask}.

(** The [h2] line of a pass (lines 229-232). *)
Definition heading (mask : Z) (name : string) : string :=
  if Z.land mask kGlossyFloor =? 0
  then "<h2>" +:+ name +:+ "</h2>"
  else "<h2> Glossy " +:+ name +:+ "</h2>".

(** The body of the inner loop (lines 239-257) on pass [sceneId2] for
    [algId]; [None] when an array is indexed outside its bounds or the
    selector is no enumerator. *)
Definition main_step (numThreads sceneId2 algId : Z) : option Step :=
  match sceneConfigs !! Z.to_nat (sceneId_of sceneId2), sweep_mask sceneId2 with
  | Some sc, Some mask =>
      match algorithmMask !! Z.to_nat algId with
      | None => None
      | Some 0 => Some Skipped
      | Some _ =>
          match Algorithm_of_value algId with
          | None => None
          | Some a =>
              let config := main_config numThreads a in
              match Config.GetName config,
                    bmp_filename (mAcronym sc) (Config.GetAcronym config) with
              | Str name, Some filename =>
                  Some (Rendered {| call_mask := mask;
                                    call_heading := heading mask (mName sc);
                                    call_config := config;
                                    call_name := name;
                                    call_filename := filename |})
              | _, _ => None
              end
          end
      end
  | _, _ => None
  end.

(** The inner loop [for (algId = 0; algId < Config::kAlgorithmMax; algId++)]
    of one pass. *)
Definition main_pass (numThreads sceneId2 : Z) : list (option Step) :=
  main_step numThreads sceneId2
    <$> iteration_space (Config.value Config.kAlgorithmMax).

(** Both loops of [main]: every execution of the inner body, in order. *)
Definition main_steps (numThreads : Z) : list (option Step) :=
  concat (main_pass numThreads <$> iteration_space (sceneConfigCount * 2)).

(** The image files the sweep writes, in order. *)
Definition main_filenames (numThreads : Z) : list string :=
  omap (fun step => match step with
                    | Some (Rendered c) => Some (call_filename c)
                    | _ => None
                    end) (main_steps numThreads).

End Main.

(** ** What a history shows of the merge and the teardown *)

Section Observers.
Context {ext : Externals}.

(** The slots [GetFramebuffer] was called on, in order. *)
Definition get_framebuffer_slots (h : list Event) : list nat :=
  omap (fun ev => match ev with EvGetFramebuffer i => Some i | _ => None end) h.

(** The slots whose buffer was passed to [Add], in order. *)
Definition add_slots (h : list Event) : list nat :=
  omap (fun ev => match ev with EvAdd i => Some i | _ => None end) h.

(** The slots [WasUsed] was asked about, in order. *)
Definition was_used_slots (h : list Event) : list nat :=
  omap (fun ev => match ev with EvWasUsed i _ => Some i | _ => None end) h.

(** The slots that were deleted, in order. *)
Definition deleted_slots (h : list Event) : list nat :=
  omap (fun ev => match ev with EvDelete i => Some i | _ => None end) h.

(** The factors [Scale] was called with, in order. *)
Definition scale_factors (h : list Event) : list float :=
  omap (fun ev => match ev with EvScale s => Some s | _ => None end) h.

(** The slots, from [i] on, of the instances of [rs] that report used. *)
Fixpoint used_slots (i : nat) (rs : list AbstractRenderer.t) : list nat :=
  match rs with
  | [] => []
  | r :: rs' =>
      if AbstractRenderer.WasUsed r
      then i :: used_slots (S i) rs'
      else used_slots (S i) rs'
  end.

End Observers.

(** * Properties *)

(** ** Integers and loop ranges *)

Lemma int_wrap_id z : is_int z -> int_wrap z = z.
Proof.
  unfold is_int, INT_MIN, INT_MAX, int_wrap. intros Hz.
  rewrite Z.mod_small; lia.
Qed.

Lemma int_wrap_inj_near a i j :
  0 <= i <= INT_MAX -> 0 <= j <= INT_MAX ->
  int_wrap (a + i) = int_wrap (a + j) -> i = j.
Proof.
  unfold INT_MAX, int_wrap. intros Hi Hj Heq.
  assert (Hmod : (a + i + 2 ^ 31) mod 2 ^ 32 = (a + j + 2 ^ 31) mod 2 ^ 32) by lia.
  pose proof (Z.div_mod (a + i + 2 ^ 31) (2 ^ 32) ltac:(lia)) as Di.
  pose proof (Z.div_mod (a + j + 2 ^ 31) (2 ^ 32) ltac:(lia)) as Dj.
  rewrite Hmod in Di.
  change (2 ^ 32) with 4294967296 in *. change (2 ^ 31) with 2147483648 in *.
  lia.
Qed.

Lemma length_slots n : length (slots n) = Z.to_nat n.
Proof. unfold slots. by rewrite length_seq. Qed.

Lemma length_iteration_space n : length (iteration_space n) = Z.to_nat n.
Proof. unfold iteration_space. by rewrite length_fmap, length_slots. Qed.

Lemma elem_of_slots n i : i ∈ slots n <-> (i < Z.to_nat n)%nat.
Proof. unfold slots. rewrite elem_of_seq. lia. Qed.

Lemma elem_of_iteration_space n z : z ∈ iteration_space n <-> 0 <= z < n.
Proof.
  unfold iteration_space. rewrite list_elem_of_fmap. split.
  - intros (i & -> & Hi). apply elem_of_slots in Hi. lia.
  - intros Hz. exists (Z.to_nat z). split; [lia|]. apply elem_of_slots. lia.
Qed.

Lemma NoDup_iteration_space n : NoDup (iteration_space n).
Proof.
  unfold iteration_space, slots.
  apply NoDup_fmap_2; [intros x y; lia | apply NoDup_seq].
Qed.

(** ** The monadic loops compute their summaries *)

Section Runs.
Context {ext : Externals}.

Lemma bind_run {A B} (c : M A) (k : A -> M B) m a m' :
  c m = Some (a, m') -> bind c k m = k a m'.
Proof. unfold bind. by intros ->. Qed.

Lemma bind_undefined {A B} (c : M A) (k : A -> M B) m :
  c m = None -> bind c k m = None.
Proof. unfold bind. by intros ->. Qed.

(** The construction loop fills the array from the left. *)
Lemma construct_from k c : forall pre m,
  renderers m = pre ++ replicate c None ->
  for_each (seq (length pre) c) (fun i => new_renderer i (k i)) m
  = Some (tt, {| renderers := pre ++ ((fun i => Some (constructed (k i))) <$> seq (length pre) c);
                 mFramebuffer := mFramebuffer m;
                 history := history m ++ ((fun i => EvNew i (k i)) <$> seq (length pre) c) |}).
Proof.
  induction c as [|c IH]; intros pre [rs fb h] Hrs; simpl in *; subst rs.
  - by rewrite !app_nil_r.
  - unfold bind at 1. unfold new_renderer, bind, emit, store. simpl.
    rewrite decide_True by (rewrite length_app; simpl; lia).
    specialize (IH (pre ++ [Some (constructed (k (length pre)))])).
    rewrite length_app in IH. simpl in IH.
    replace (length pre + 1)%nat with (S (length pre)) in IH by lia.
    rewrite IH.
    + simpl. by rewrite <- !app_assoc.
    + simpl. rewrite <- app_assoc. simpl.
      replace (length pre) with (length pre + 0)%nat at 1 by lia.
      by rewrite insert_app_r.
Qed.

Lemma construct_all_run n k m :
  renderers m = replicate (Z.to_nat n) None ->
  construct_all n k m
  = Some (tt, {| renderers := (fun i => Some (constructed (k i))) <$> slots n;
                 mFramebuffer := mFramebuffer m;
                 history := history m ++ ((fun i => EvNew i (k i)) <$> slots n) |}).
Proof.
  intros Hrs. unfold construct_all, slots.
  exact (construct_from k (Z.to_nat n) [] m Hrs).
Qed.

(** A loop whose body replaces the instance of its slot: it is defined
    on initialised slots, and works from the left. *)
Lemma sweep_from (ev : nat -> AbstractRenderer.t -> Event)
      (f : nat -> AbstractRenderer.t -> option AbstractRenderer.t)
      (body : nat -> M unit) :
  (forall i m r, renderers m !! i = Some (Some r) ->
     body i m = Some (tt, {| renderers := <[i := f i r]> (renderers m);
                             mFramebuffer := mFramebuffer m;
                             history := history m ++ [ev i r] |})) ->
  forall todo pre m,
  renderers m = pre ++ (Some <$> todo) ->
  for_each (seq (length pre) (length todo)) body m
  = Some (tt, {| renderers := pre ++ imap (fun j r => f (length pre + j)%nat r) todo;
                 mFramebuffer := mFramebuffer m;
                 history := history m ++ imap (fun j r => ev (length pre + j)%nat r) todo |}).
Proof.
  intros Hbody. induction todo as [|r todo IH]; intros pre [rs fb h] Hrs;
    cbn [renderers mFramebuffer history length seq for_each] in *; subst rs.
  - by rewrite !app_nil_r.
  - rewrite fmap_cons.
    erewrite bind_run; cycle 1.
    { apply Hbody. simpl. by rewrite list_lookup_middle. }
    cbv beta. cbn [renderers mFramebuffer history].
    assert (Hins : <[length pre:=f (length pre) r]> (pre ++ Some r :: fmap Some todo)
                   = (pre ++ [f (length pre) r]) ++ fmap Some todo).
    { rewrite <- app_assoc. simpl.
      replace (length pre) with (length pre + 0)%nat at 1 by lia.
      by rewrite insert_app_r. }
    rewrite Hins.
    specialize (IH (pre ++ [f (length pre) r])).
    rewrite length_app in IH. simpl in IH.
    replace (length pre + 1)%nat with (S (length pre)) in IH by lia.
    rewrite IH by done. simpl.
    rewrite <- !app_assoc. simpl. rewrite Nat.add_0_r.
    assert (Hshift : forall (B : Type) (g : nat -> AbstractRenderer.t -> B),
               imap (fun j x => g (S (length pre + j)) x) todo
               = imap ((fun j x => g (length pre + j)%nat x) ∘ S) todo).
    { intros B g. apply imap_ext. intros j x _. simpl. f_equal. lia. }
    by rewrite !Hshift.
Qed.

Lemma sweep_run ev f body :
  (forall i m r, renderers m !! i = Some (Some r) ->
     body i m = Some (tt, {| renderers := <[i := f i r]> (renderers m);
                             mFramebuffer := mFramebuffer m;
                             history := history m ++ [ev i r] |})) ->
  forall rs m,
  renderers m = Some <$> rs ->
  for_each (seq 0 (length rs)) body m
  = Some (tt, {| renderers := imap f rs;
                 mFramebuffer := mFramebuffer m;
                 history := history m ++ imap ev rs |}).
Proof.
  intros Hbody rs m Hrs.
  exact (sweep_from ev f body Hbody rs [] m Hrs).
Qed.

Lemma assign_mMaxPathLength_run v i m r :
  renderers m !! i = Some (Some r) ->
  assign_mMaxPathLength v i m
  = Some (tt, {| renderers := <[i := Some (AbstractRenderer.set_mMaxPathLength v r)]> (renderers m);
                 mFramebuffer := mFramebuffer m;
                 history := history m ++ [EvSetMaxPathLength i v] |}).
Proof.
  intros Hi. unfold assign_mMaxPathLength, bind, deref, emit, store. rewrite Hi. simpl.
  by rewrite decide_True by (by eapply lookup_lt_Some).
Qed.

Lemma delete_renderer_run i m r :
  renderers m !! i = Some (Some r) ->
  delete_renderer i m
  = Some (tt, {| renderers := <[i := None]> (renderers m);
                 mFramebuffer := mFramebuffer m;
                 history := history m ++ [EvDelete i] |}).
Proof.
  intros Hi. unfold delete_renderer, bind, deref, emit, store. rewrite Hi. simpl.
  by rewrite decide_True by (by eapply lookup_lt_Some).
Qed.

Lemma run_one_run e m r :
  renderers m !! e.1 = Some (Some r) ->
  run_one e m
  = Some (tt, {| renderers := <[e.1 := Some (AbstractRenderer.RunIteration e.2 r)]> (renderers m);
                 mFramebuffer := mFramebuffer m;
                 history := history m ++ [run_event e] |}).
Proof.
  intros Hi. unfold run_one, bind, deref, emit, store. rewrite Hi. simpl.
  by rewrite decide_True by (by eapply lookup_lt_Some).
Qed.

Lemma length_run_schedule sched : forall rs,
  length (run_schedule sched rs) = length rs.
Proof.
  unfold run_schedule. induction sched as [|e sched IH]; intros rs; simpl; [done|].
  by rewrite IH, length_alter.
Qed.

(** The parallel loop, on initialised instances and thread numbers
    within the array. *)
Lemma run_schedule_run sched : forall rs m,
  renderers m = Some <$> rs ->
  Forall (fun e : nat * Z => (e.1 < length rs)%nat) sched ->
  for_each sched run_one m
  = Some (tt, {| renderers := Some <$> run_schedule sched rs;
                 mFramebuffer := mFramebuffer m;
                 history := history m ++ (run_event <$> sched) |}).
Proof.
  induction sched as [|e sched IH]; intros rs [a fb h] Hrs Hthreads;
    cbn [renderers mFramebuffer history for_each] in *; subst a.
  - unfold ret. by rewrite app_nil_r.
  - apply Forall_cons in Hthreads as [He Hthreads].
    destruct (lookup_lt_is_Some_2 rs e.1 He) as [r Hr].
    erewrite bind_run; cycle 1.
    { apply run_one_run. cbn [renderers]. by rewrite list_lookup_fmap, Hr. }
    cbv beta. cbn [renderers mFramebuffer history].
    rewrite (IH (alter (AbstractRenderer.RunIteration e.2) e.1 rs)).
    + cbn [renderers mFramebuffer history]. rewrite fmap_cons, <- app_assoc. done.
    + cbn [renderers]. rewrite <- list_fmap_insert. f_equal.
      rewrite list_insert_alter. apply list_alter_ext; [|done].
      intros x Hx. congruence.
    + by rewrite length_alter.
Qed.

(** The merge loop reads the instances from the left. *)
Lemma merge_from todo : forall pre m usedRenderers,
  renderers m = pre ++ (Some <$> todo) ->
  for_fold (seq (length pre) (length todo)) usedRenderers merge_one m
  = Some ((merge_loop todo (mFramebuffer m) usedRenderers).2,
          {| renderers := renderers m;
             mFramebuffer := (merge_loop todo (mFramebuffer m) usedRenderers).1;
             history := history m ++ merge_events (length pre) todo usedRenderers |}).
Proof.
  induction todo as [|r todo IH]; intros pre [rs fb h] used Hrs;
    cbn [renderers mFramebuffer history length seq for_fold merge_loop merge_events] in *;
    subst rs.
  - unfold ret. simpl. by rewrite (app_nil_r h).
  - rewrite fmap_cons.
    assert (Hnext : pre ++ Some r :: (Some <$> todo) = (pre ++ [Some r]) ++ (Some <$> todo))
      by (by rewrite <- app_assoc).
    specialize (IH (pre ++ [Some r])).
    rewrite length_app in IH. simpl in IH.
    replace (length pre + 1)%nat with (S (length pre)) in IH by lia.
    unfold bind at 1. unfold merge_one at 1. unfold bind at 1. unfold deref at 1.
    cbn [renderers]. rewrite list_lookup_middle by done.
    unfold bind, emit, write_framebuffer, read_framebuffer, ret.
    cbn [renderers mFramebuffer history].
    destruct (AbstractRenderer.WasUsed r); cbn [negb].
    + destruct (used =? 0);
        cbn [renderers mFramebuffer history];
        rewrite IH by (cbn [renderers]; exact Hnext);
        cbn [renderers mFramebuffer history];
        rewrite <- ?app_assoc; done.
    + rewrite IH by (cbn [renderers]; exact Hnext).
      cbn [renderers mFramebuffer history]. rewrite <- ?app_assoc. done.
Qed.

Lemma imap_fmap_seq {A B} (f : nat -> A -> B) (g : nat -> A) n :
  imap f (g <$> seq 0 n) = (fun i => f i (g i)) <$> seq 0 n.
Proof.
  apply list_eq. intros i.
  rewrite list_lookup_imap, !list_lookup_fmap.
  destruct (decide (i < n)%nat) as [Hi|Hi].
  - by rewrite lookup_seq_lt by done.
  - by rewrite lookup_seq_ge by lia.
Qed.

Lemma construct_renderers_switch aConfig k :
  construction_of aConfig = Some k ->
  construct_renderers aConfig
  = bind (construct_all (Config.mNumThreads aConfig) k)
         (fun _ => ret (effective_iterations aConfig)).
Proof.
  unfold construction_of, construct_renderers, effective_iterations.
  destruct (Config.mAlgorithm aConfig); intros [= <-]; reflexivity.
Qed.

Lemma length_prepared aConfig k :
  length (prepared aConfig k) = Z.to_nat (Config.mNumThreads aConfig).
Proof. unfold prepared. by rewrite length_fmap, length_slots. Qed.

(** Lines 75-123 *)
Lemma setup_run aConfig k m :
  construction_of aConfig = Some k ->
  0 <= Config.mNumThreads aConfig ->
  setup aConfig m
  = Some (effective_iterations aConfig,
          {| renderers := Some <$> prepared aConfig k;
             mFramebuffer := mFramebuffer m;
             history := history m ++ setup_history aConfig k |}).
Proof.
  intros Hk Hn. unfold setup.
  erewrite bind_run; cycle 1.
  { unfold new_array. rewrite (proj2 (Z.ltb_ge _ _)) by done. reflexivity. }
  rewrite (construct_renderers_switch _ _ Hk).
  erewrite bind_run; cycle 1.
  { erewrite bind_run; [reflexivity|]. by apply construct_all_run. }
  cbv beta.
  set (built := (fun i => constructed (k i)) <$> slots (Config.mNumThreads aConfig)).
  erewrite bind_run; cycle 1.
  { unfold slots.
    replace (Z.to_nat (Config.mNumThreads aConfig)) with (length built)
      by (unfold built; by rewrite length_fmap, length_slots).
    apply (sweep_run
             (fun i _ => EvSetMaxPathLength i (Config.mMaxPathLength aConfig))
             (fun _ r => Some (AbstractRenderer.set_mMaxPathLength
                                 (Config.mMaxPathLength aConfig) r))).
    - intros i m' r Hr. by apply assign_mMaxPathLength_run.
    - cbn [renderers]. unfold built.
      rewrite length_fmap, length_slots, <- list_fmap_compose. reflexivity. }
  unfold ret. cbn [renderers mFramebuffer history].
  rewrite (imap_seq_0 built (fun i => EvSetMaxPathLength i (Config.mMaxPathLength aConfig))).
  unfold built, prepared, setup_history, slots.
  rewrite imap_fmap_seq, !length_fmap, !length_seq, <- list_fmap_compose, <- app_assoc.
  reflexivity.
Qed.

(** Lines 125-132 *)
Lemma timed_dispatch_run env iterations rs m :
  renderers m = Some <$> rs ->
  Forall (fun e : nat * Z => (e.1 < length rs)%nat) (omp_schedule env iterations) ->
  timed_dispatch env iterations m
  = Some ((clock env (history m),
           clock env (history m ++ [EvClock] ++ (run_event <$> omp_schedule env iterations))),
          {| renderers := Some <$> run_schedule (omp_schedule env iterations) rs;
             mFramebuffer := mFramebuffer m;
             history := history m ++ [EvClock]
                          ++ (run_event <$> omp_schedule env iterations) ++ [EvClock] |}).
Proof.
  intros Hrs Hthreads. unfold timed_dispatch, read_clock, run_iterations.
  unfold bind at 1. unfold bind at 1.
  rewrite (run_schedule_run _ rs) by done.
  unfold bind, ret. cbn [renderers mFramebuffer history fst snd].
  by rewrite <- !app_assoc.
Qed.

(** Lines 134-151 *)
Lemma merge_run n rs m :
  renderers m = Some <$> rs ->
  length rs = Z.to_nat n ->
  merge n m
  = Some ((merge_loop rs (mFramebuffer m) 0).2,
          {| renderers := renderers m;
             mFramebuffer := Scale (normalisation (merge_loop rs (mFramebuffer m) 0).2)
                               (merge_loop rs (mFramebuffer m) 0).1;
             history := history m ++ merge_events 0 rs 0
                          ++ [EvScale (normalisation (merge_loop rs (mFramebuffer m) 0).2)] |}).
Proof.
  intros Hrs Hlen. unfold merge, slots. rewrite <- Hlen.
  erewrite bind_run by exact (merge_from rs [] m 0 Hrs).
  unfold bind, emit, read_framebuffer, write_framebuffer, ret, normalisation.
  cbn [renderers mFramebuffer history length].
  by rewrite <- app_assoc.
Qed.

(** Lines 153-155 *)
Lemma teardown_run n rs m :
  renderers m = Some <$> rs ->
  length rs = Z.to_nat n ->
  teardown n m
  = Some (tt, {| renderers := [];
                 mFramebuffer := mFramebuffer m;
                 history := history m ++ (EvDelete <$> slots n) |}).
Proof.
  intros Hrs Hlen. unfold teardown, slots. rewrite <- Hlen.
  erewrite bind_run; cycle 1.
  { apply (sweep_run (fun i _ => EvDelete i) (fun _ _ => None)); [|exact Hrs].
    intros i m' r Hr. by eapply delete_renderer_run. }
  unfold delete_array. cbn [renderers mFramebuffer history].
  by rewrite imap_seq_0.
Qed.

(** [render], start to end, when the [switch] has a case for the
    selector and OpenMP runs the loop on threads within the array. *)
Lemma render_run env aConfig k m :
  construction_of aConfig = Some k ->
  0 <= Config.mNumThreads aConfig ->
  Forall (fun e : nat * Z => (e.1 < Z.to_nat (Config.mNumThreads aConfig))%nat)
         (omp_schedule env (effective_iterations aConfig)) ->
  let sched := omp_schedule env (effective_iterations aConfig) in
  let rs := dispatched env aConfig k in
  let h1 := history m ++ setup_history aConfig k in
  let h2 := h1 ++ [EvClock] ++ (run_event <$> sched) in
  let agg := merge_loop rs (mFramebuffer m) 0 in
  render env aConfig m
  = Some (elapsed (clock env h1) (clock env h2),
          {| renderers := [];
             mFramebuffer := Scale (normalisation agg.2) agg.1;
             history := h2 ++ [EvClock] ++ merge_events 0 rs 0
                           ++ [EvScale (normalisation agg.2)]
                           ++ (EvDelete <$> slots (Config.mNumThreads aConfig)) |}).
Proof.
  intros Hk Hn Hthreads sched rs h1 h2 agg. unfold render.
  erewrite bind_run by (by apply setup_run).
  erewrite bind_run; cycle 1.
  { apply (timed_dispatch_run env _ (prepared aConfig k)); [done|].
    by rewrite length_prepared. }
  erewrite bind_run; cycle 1.
  { apply (merge_run _ rs); [done|].
    unfold rs, dispatched. by rewrite length_run_schedule, length_prepared. }
  erewrite bind_run; cycle 1.
  { apply (teardown_run _ rs); [done|].
    unfold rs, dispatched. by rewrite length_run_schedule, length_prepared. }
  unfold ret. cbn [renderers mFramebuffer history fst snd].
  subst h2 h1 agg sched. by rewrite <- !app_assoc.
Qed.

(** The machine when the merge loop starts. *)
Lemma dispatch_reached env aConfig k m :
  construction_of aConfig = Some k ->
  0 <= Config.mNumThreads aConfig ->
  Forall (fun e : nat * Z => (e.1 < Z.to_nat (Config.mNumThreads aConfig))%nat)
         (omp_schedule env (effective_iterations aConfig)) ->
  exists t m1,
    bind (setup aConfig) (timed_dispatch env) m = Some (t, m1) /\
    renderers m1 = Some <$> dispatched env aConfig k /\
    mFramebuffer m1 = mFramebuffer m.
Proof.
  intros Hk Hn Hthreads.
  erewrite bind_run by (by apply setup_run).
  erewrite (timed_dispatch_run env _ (prepared aConfig k));
    [|done|by rewrite length_prepared].
  eexists _, _. split; [reflexivity|]. done.
Qed.

(** X1.  The [switch] has no case for [kAlgorithmMax]: with at least one
    worker the array keeps its indeterminate pointers, line 123
    dereferences the first of them, and the run has no defined result. *)
Lemma render_without_case env aConfig m :
  Config.mAlgorithm aConfig = Config.kAlgorithmMax ->
  1 <= Config.mNumThreads aConfig ->
  render env aConfig m = None.
Proof.
  intros Halg Hn. unfold render. apply bind_undefined.
  unfold setup.
  erewrite bind_run; cycle 1.
  { unfold new_array. rewrite (proj2 (Z.ltb_ge _ _)) by lia. reflexivity. }
  unfold construct_renderers. rewrite Halg.
  erewrite bind_run by reflexivity.
  apply bind_undefined.
  unfold slots.
  destruct (Z.to_nat (Config.mNumThreads aConfig)) as [|n] eqn:Hw; [lia|].
  cbn [seq for_each]. apply bind_undefined.
  unfold assign_mMaxPathLength. apply bind_undefined.
  unfold deref. cbn [renderers replicate]. reflexivity.
Qed.

End Runs.

(** ** The merge loop *)

Section Merge.
Context {ext : Externals}.

Lemma int_add_one_counter used :
  0 <= used < INT_MAX -> int_add used 1 = used + 1.
Proof.
  intros Hu. unfold int_add. apply int_wrap_id.
  unfold is_int, INT_MIN, INT_MAX in *. lia.
Qed.

(** The counter of the merge loop cannot wrap: it counts slots of an
    array whose length is an [int]. *)
Lemma merge_loop_used rs : forall fb used,
  0 <= used ->
  used + Z.of_nat (length rs) <= INT_MAX ->
  merge_loop rs fb used
  = (if used =? 0
     then match used_instances rs with
          | [] => fb
          | first :: rest => foldl (fun fb r => Add fb (extract r)) (extract first) rest
          end
     else foldl (fun fb r => Add fb (extract r)) fb (used_instances rs),
     used + Z.of_nat (length (used_instances rs))).
Proof.
  unfold used_instances.
  induction rs as [|r rs IH]; intros fb used Hu Hlen; cbn [merge_loop length] in *.
  - rewrite filter_nil. cbn [length foldl]. rewrite Z.add_0_r.
    by destruct (used =? 0).
  - destruct (AbstractRenderer.WasUsed r) eqn:Hr.
    + rewrite filter_cons_True by done.
      rewrite int_add_one_counter by lia.
      rewrite IH by lia.
      rewrite (proj2 (Z.eqb_neq (used + 1) 0)) by lia.
      cbn [length foldl]. f_equal; [|lia].
      by destruct (used =? 0).
    + rewrite filter_cons_False by (by rewrite Hr).
      rewrite IH by lia. done.
Qed.

Lemma merge_loop_aggregate rs fb first rest :
  Z.of_nat (length rs) <= INT_MAX ->
  used_instances rs = first :: rest ->
  inr (Scale (normalisation (merge_loop rs fb 0).2) (merge_loop rs fb 0).1)
  = aggregate_spec rs.
Proof.
  intros Hlen HU. rewrite merge_loop_used by lia.
  unfold aggregate_spec, normalisation. rewrite HU.
  cbn [fst snd Z.eqb]. by rewrite Z.add_0_l.
Qed.

Lemma merge_loop_unused rs fb :
  (forall r, r ∈ rs -> AbstractRenderer.WasUsed r = false) ->
  merge_loop rs fb 0 = (fb, 0) /\
  used_instances rs = [] /\
  forall i, merge_events i rs 0 = imap (fun j _ => EvWasUsed (i + j) false) rs.
Proof.
  unfold used_instances.
  induction rs as [|r rs IH]; intros Hall; cbn [merge_loop merge_events].
  - by rewrite filter_nil.
  - assert (Hr : AbstractRenderer.WasUsed r = false) by (apply Hall; left).
    destruct IH as (IH1 & IH2 & IH3); [intros; apply Hall; by right|].
    rewrite Hr, filter_cons_False by (by rewrite Hr).
    split_and!; [done..|].
    intros i. rewrite IH3. cbn [imap]. rewrite Nat.add_0_r. f_equal.
    apply imap_ext. intros j x _. simpl. f_equal. lia.
Qed.

(** The aggregate, pixel by pixel: the pixels of the used instances are
    summed in slot order and the sum is scaled. *)
Lemma aggregate_pixel (bufs : list Framebuffer) : forall (fb : Framebuffer) j c cs,
  fb !! j = Some c ->
  Forall2 (fun (buf : Framebuffer) o => buf !! j = Some o) bufs cs ->
  foldl Add fb bufs !! j = Some (foldl Vec3f_add c cs).
Proof.
  assert (Hadd : forall (fb buf : Framebuffer) j c o,
             fb !! j = Some c -> buf !! j = Some o ->
             Add fb buf !! j = Some (Vec3f_add c o)).
  { induction fb as [|x fb IH]; intros buf j c o Hc Ho; [done|].
    destruct buf as [|y buf]; [done|].
    destruct j as [|j]; simpl in *; [congruence|by apply IH]. }
  induction bufs as [|buf bufs IH]; intros fb j c cs Hc Hcs.
  - apply Forall2_nil_inv_l in Hcs as ->. done.
  - apply Forall2_cons_inv_l in Hcs as (o & cs' & Ho & Hcs' & ->).
    cbn [foldl]. apply IH; [|done]. by apply Hadd.
Qed.

End Merge.

(** ** The parallel loop *)

Section Dispatch.
Context {ext : Externals}.

Lemma ran_also_nil r : ran_also [] r = r.
Proof. destruct r. unfold ran_also. simpl. by rewrite app_nil_r. Qed.

(** Each instance is run on the indices its own thread executes, in the
    order the thread executes them, and on nothing else. *)
Lemma run_schedule_lookup sched : forall rs j,
  run_schedule sched rs !! j = ran_also (indices_of_thread j sched) <$> rs !! j.
Proof.
  unfold run_schedule, indices_of_thread.
  induction sched as [|e sched IH]; intros rs j; cbn [foldl].
  - rewrite filter_nil. cbn [fmap list_fmap].
    destruct (rs !! j) as [r|]; [|done]. cbn. by rewrite ran_also_nil.
  - rewrite IH. destruct (decide (e.1 = j)) as [He|He].
    + rewrite filter_cons_True by done. subst j.
      rewrite list_lookup_alter_eq. destruct (rs !! e.1) as [r|]; [|done].
      cbn. f_equal. unfold ran_also, AbstractRenderer.RunIteration. cbn.
      by rewrite <- app_assoc.
    + rewrite filter_cons_False by done.
      by rewrite list_lookup_alter_ne.
Qed.

Lemma run_calls_app h1 h2 : run_calls (h1 ++ h2) = run_calls h1 ++ run_calls h2.
Proof. unfold run_calls. apply omap_app. Qed.

Lemma run_calls_run_events sched : run_calls (run_event <$> sched) = sched.
Proof.
  unfold run_calls. induction sched as [|[t i] sched IH]; [done|].
  cbn. by rewrite IH.
Qed.

Lemma run_calls_none h :
  Forall (fun ev => is_run_event ev = false) h -> run_calls h = [].
Proof.
  unfold run_calls. induction 1 as [|ev h Hev _ IH]; [done|].
  cbn. rewrite IH. by destruct ev.
Qed.

Lemma run_calls_cons_other ev h :
  is_run_event ev = false -> run_calls (ev :: h) = run_calls h.
Proof. unfold run_calls. by destruct ev. Qed.

Lemma merge_events_kind rs : forall i usedRenderers,
  Forall (fun ev => is_merge_or_teardown_event ev = true)
         (merge_events i rs usedRenderers).
Proof.
  induction rs as [|r rs IH]; intros i u; cbn [merge_events]; [done|].
  constructor; [done|].
  destruct (AbstractRenderer.WasUsed r); [|apply IH].
  apply Forall_app. split; [|apply IH].
  destruct (u =? 0); repeat constructor.
Qed.

Lemma run_calls_merge_events rs i usedRenderers :
  run_calls (merge_events i rs usedRenderers) = [].
Proof.
  apply run_calls_none. eapply Forall_impl; [apply merge_events_kind|].
  by intros [].
Qed.

Lemma occurs_once (l : list Z) x :
  NoDup l -> x ∈ l -> length (filter (fun y => y = x) l) = 1%nat.
Proof.
  induction 1 as [|y l Hy Hnd IH]; intros Hin; [by apply elem_of_nil in Hin|].
  apply elem_of_cons in Hin as [<-|Hin].
  - rewrite filter_cons_True by done. cbn. f_equal.
    apply length_zero_iff_nil.
    destruct (filter (fun y => y = x) l) as [|z rest] eqn:Hf; [done|].
    assert (Hz : z ∈ filter (fun y => y = x) l) by (rewrite Hf; left).
    apply list_elem_of_filter in Hz as [-> Hz]. done.
  - rewrite filter_cons_False; [by apply IH|]. intros ->. done.
Qed.

Lemma length_filter_snd (sched : list (nat * Z)) x :
  length (filter (fun e : nat * Z => e.2 = x) sched)
  = length (filter (fun y => y = x) sched.*2).
Proof.
  induction sched as [|e sched IH]; [done|].
  rewrite fmap_cons. destruct (decide (e.2 = x)) as [He|He].
  - rewrite !filter_cons_True by done. cbn. by rewrite IH.
  - by rewrite !filter_cons_False by done.
Qed.

(** Under the work-sharing contract an index is executed by exactly one
    call, on a thread of the team. *)
Lemma conforming_once env numThreads iterations idx :
  omp_conforming env numThreads iterations ->
  0 <= idx < iterations ->
  exists threadId,
    (threadId < Z.to_nat numThreads)%nat /\
    filter (fun e : nat * Z => e.2 = idx) (omp_schedule env iterations)
    = [(threadId, idx)].
Proof.
  intros [Hperm Hthreads] Hidx.
  set (sched := omp_schedule env iterations) in *.
  assert (Hlen : length (filter (fun e : nat * Z => e.2 = idx) sched) = 1%nat).
  { rewrite length_filter_snd, Hperm.
    apply occurs_once; [apply NoDup_iteration_space|].
    by apply elem_of_iteration_space. }
  destruct (filter (fun e : nat * Z => e.2 = idx) sched) as [|[t i] [|? ?]] eqn:Hf;
    try discriminate.
  assert (Hin : (t, i) ∈ filter (fun e : nat * Z => e.2 = idx) sched)
    by (rewrite Hf; left).
  apply list_elem_of_filter in Hin as [Hi Hin]. cbn in Hi. subst i.
  exists t. split; [|done].
  rewrite Forall_forall in Hthreads. exact (Hthreads _ Hin).
Qed.

Lemma conforming_threads env numThreads iterations :
  omp_conforming env numThreads iterations ->
  Forall (fun e : nat * Z => (e.1 < Z.to_nat numThreads)%nat)
         (omp_schedule env iterations).
Proof. by intros [_ ?]. Qed.

Lemma conforming_length env numThreads iterations :
  omp_conforming env numThreads iterations ->
  length (omp_schedule env iterations) = Z.to_nat iterations.
Proof.
  intros [Hperm _].
  rewrite <- (length_fmap snd), Hperm. apply length_iteration_space.
Qed.

(** A loop of one iteration is one call, with index 0. *)
Lemma conforming_single env numThreads :
  omp_conforming env numThreads 1 ->
  exists threadId,
    (threadId < Z.to_nat numThreads)%nat /\
    omp_schedule env 1 = [(threadId, 0)].
Proof.
  intros [Hperm Hthreads].
  change (iteration_space 1) with [0] in Hperm.
  apply Permutation_singleton_r in Hperm.
  destruct (omp_schedule env 1) as [|[t i] [|? ?]]; try discriminate.
  cbn in Hperm. injection Hperm as ->.
  exists t. split; [|done]. by apply (Forall_inv Hthreads).
Qed.

(** A loop of no iteration is no call. *)
Lemma conforming_none env numThreads iterations :
  omp_conforming env numThreads iterations ->
  iterations <= 0 ->
  omp_schedule env iterations = [].
Proof.
  intros Hc Hi. apply length_zero_iff_nil.
  rewrite (conforming_length _ _ _ Hc). lia.
Qed.

(** The contract can be met for every team and every trip count: dealing
    the indices to the threads in turn meets it. *)
Lemma cyclic_conforming numThreads iterations :
  1 <= numThreads ->
  omp_conforming (cyclic (Z.to_nat numThreads)) numThreads iterations.
Proof.
  intros Hn. split.
  - unfold cyclic, iteration_space. cbn [omp_schedule].
    by rewrite <- list_fmap_compose.
  - unfold cyclic. cbn [omp_schedule].
    apply Forall_fmap, Forall_forall. intros i _. cbn.
    apply Nat.mod_upper_bound. lia.
Qed.

End Dispatch.

(** ** The aggregate of a run *)

(** An event of one kind is not in a list of events of other kinds. *)
Ltac absent_event :=
  first
    [ apply not_elem_of_nil
    | rewrite list_elem_of_singleton; discriminate
    | rewrite list_elem_of_fmap; intros (? & ? & _); discriminate
    | let Hin := fresh "Hin" in
      let j := fresh "j" in
      let Hj := fresh "Hj" in
      intros Hin; apply list_elem_of_lookup_1 in Hin as [j Hj];
      rewrite list_lookup_imap in Hj;
      match type of Hj with context [?l !! j] => destruct (l !! j) end;
      discriminate ].

Section Aggregation.
Context {ext : Externals}.

(** C1.  In every run in which at least one instance reports used, the
    framebuffer [render] leaves is the unweighted elementwise mean over the
    used instances: the first used instance's buffer replaces the
    aggregate, the buffer of every further used instance is added
    elementwise, and every element is scaled by 1/|U|, |U| the number of
    used instances; unused instances do not contribute and do not count. *)
Theorem render_aggregate_is_mean_of_used env aConfig k fb0 :
  construction_of aConfig = Some k ->
  1 <= Config.mNumThreads aConfig <= INT_MAX ->
  omp_conforming env (Config.mNumThreads aConfig) (effective_iterations aConfig) ->
  (exists r, r ∈ dispatched env aConfig k /\ AbstractRenderer.WasUsed r = true) ->
  exists t m1 duration m',
    bind (setup aConfig) (timed_dispatch env) (entry fb0) = Some (t, m1) /\
    renderers m1 = Some <$> dispatched env aConfig k /\
    render env aConfig (entry fb0) = Some (duration, m') /\
    inr (mFramebuffer m') = aggregate_spec (dispatched env aConfig k) /\
    forall first rest j c cs,
      used_instances (dispatched env aConfig k) = first :: rest ->
      extract first !! j = Some c ->
      Forall2 (fun r o => extract r !! j = Some o) rest cs ->
      mFramebuffer m' !! j
      = Some (Vec3f_scale (foldl Vec3f_add c cs)
                (float_div float_one (float_of_int (Z.of_nat (length (first :: rest)))))).
Proof.
  intros Hk Hn Homp (r & Hr & Hused).
  pose proof (conforming_threads _ _ _ Homp) as Hthreads.
  destruct (dispatch_reached env aConfig k (entry fb0) Hk ltac:(lia) Hthreads)
    as (t & m1 & Hreach & Hm1 & _).
  set (rs := dispatched env aConfig k) in *.
  assert (Hlen : Z.of_nat (length rs) <= INT_MAX).
  { unfold rs, dispatched. rewrite length_run_schedule, length_prepared. lia. }
  destruct (used_instances rs) as [|first rest] eqn:HU.
  { exfalso. eapply (filter_nil_not_elem_of _ rs r); [exact HU|exact Hused|exact Hr]. }
  exists t, m1. eexists _, _. split_and!; [done|done| |..].
  - apply render_run; [done|lia|done].
  - cbn [mFramebuffer]. fold rs.
    by eapply merge_loop_aggregate.
  - intros first' rest' j c cs [= <- <-] Hc Hcs.
    cbn [mFramebuffer]. fold rs.
    rewrite merge_loop_used by (cbn; lia). rewrite HU.
    cbn [fst snd Z.eqb]. rewrite Z.add_0_l.
    unfold Scale, normalisation. rewrite list_lookup_fmap.
    rewrite <- (foldl_fmap Add (extract first) rest extract).
    erewrite aggregate_pixel; [reflexivity|exact Hc|].
    by apply Forall2_fmap_l.
Qed.

(** C2, as the code has it.  When no instance reports used, [render]
    still returns: no buffer is extracted or added, [usedRenderers] stays
    0, and the caller's framebuffer only goes through the final [Scale]
    by [1.f / usedRenderers]. *)
Theorem render_without_used_instance env aConfig k fb0 :
  construction_of aConfig = Some k ->
  0 <= Config.mNumThreads aConfig <= INT_MAX ->
  omp_conforming env (Config.mNumThreads aConfig) (effective_iterations aConfig) ->
  (forall r, r ∈ dispatched env aConfig k -> AbstractRenderer.WasUsed r = false) ->
  exists t m1 duration m',
    bind (setup aConfig) (timed_dispatch env) (entry fb0) = Some (t, m1) /\
    renderers m1 = Some <$> dispatched env aConfig k /\
    render env aConfig (entry fb0) = Some (duration, m') /\
    aggregate_spec (dispatched env aConfig k) = inl EmptyResultError /\
    mFramebuffer m' = Scale (normalisation 0) fb0 /\
    EvScale (normalisation 0) ∈ history m' /\
    forall i, (EvGetFramebuffer i ∉ history m') /\ (EvAdd i ∉ history m').
Proof.
  intros Hk Hn Homp Hunused.
  pose proof (conforming_threads _ _ _ Homp) as Hthreads.
  destruct (merge_loop_unused (dispatched env aConfig k) fb0 Hunused)
    as (Hloop & HU & Hevents).
  destruct (dispatch_reached env aConfig k (entry fb0) Hk ltac:(lia) Hthreads)
    as (t & m1 & Hreach & Hm1 & _).
  exists t, m1. eexists _, _. split; [exact Hreach|]. split; [exact Hm1|].
  split; [apply render_run; [done|lia|done]|].
  cbn [mFramebuffer history entry]. rewrite Hloop. cbn [fst snd].
  split_and!.
  - unfold aggregate_spec. by rewrite HU.
  - done.
  - rewrite !elem_of_app, !list_elem_of_singleton. right; right; right; left. reflexivity.
  - intros i. rewrite Hevents. unfold setup_history.
    split; rewrite !not_elem_of_app; split_and!; absent_event.
Qed.

End Aggregation.

(** ** Construction, seeds and the path-length bound *)

Section Construction.
Context {ext : Externals}.

Lemma assigned_seeds_prepared aConfig k m :
  renderers m = Some <$> prepared aConfig k ->
  assigned_seeds m = (fun i => seed_argument (k i)) <$> slots (Config.mNumThreads aConfig).
Proof.
  intros Hm. unfold assigned_seeds. rewrite Hm. unfold prepared.
  rewrite <- !list_fmap_compose. by apply list_fmap_ext.
Qed.

Lemma NoDup_wrapped_seeds base n :
  n <= INT_MAX ->
  NoDup ((fun i : nat => Some (int_add base (Z.of_nat i))) <$> slots n).
Proof.
  intros Hn. apply NoDup_fmap_2_strong; [|apply NoDup_seq].
  intros i j Hi Hj [= Heq]. apply elem_of_slots in Hi, Hj.
  unfold int_add in Heq. apply int_wrap_inj_near in Heq; lia.
Qed.

Lemma seeds_exact base n :
  is_int base -> base + n - 1 <= INT_MAX ->
  (fun i : nat => Some (int_add base (Z.of_nat i))) <$> slots n
  = (fun i : nat => Some (base + Z.of_nat i)) <$> slots n.
Proof.
  intros Hb Hn. apply list_fmap_ext. intros _ i Hi%list_elem_of_lookup_2.
  apply elem_of_slots in Hi. f_equal. unfold int_add. apply int_wrap_id.
  unfold is_int in *. lia.
Qed.

(** C3, as the code has it.  For every selector with a seeded renderer
    (all but eye-light) and every worker count W >= 1, the instance of
    slot i is constructed with the seed [mBaseSeed + i] in [int]
    arithmetic, which is the sum itself whenever that fits an [int]; the
    seeds are pairwise distinct and a function of the base seed and the
    worker count alone.  The eye-light instances are constructed without a
    seed. *)
Theorem seeds_assigned_per_slot aConfig k fb0 :
  construction_of aConfig = Some k ->
  1 <= Config.mNumThreads aConfig <= INT_MAX ->
  exists m,
    setup aConfig (entry fb0) = Some (effective_iterations aConfig, m) /\
    length (renderers m) = Z.to_nat (Config.mNumThreads aConfig) /\
    match Config.mAlgorithm aConfig with
    | Config.kEyeLight =>
        assigned_seeds m = replicate (Z.to_nat (Config.mNumThreads aConfig)) None
    | _ =>
        assigned_seeds m
        = (fun i : nat => Some (int_add (Config.mBaseSeed aConfig) (Z.of_nat i)))
            <$> slots (Config.mNumThreads aConfig) /\
        NoDup (assigned_seeds m) /\
        (is_int (Config.mBaseSeed aConfig) ->
         Config.mBaseSeed aConfig + Config.mNumThreads aConfig - 1 <= INT_MAX ->
         assigned_seeds m
         = (fun i : nat => Some (Config.mBaseSeed aConfig + Z.of_nat i))
             <$> slots (Config.mNumThreads aConfig))
    end.
Proof.
  intros Hk Hn. eexists. split; [apply (setup_run _ k); [done|lia]|].
  cbn [renderers]. split; [by rewrite length_fmap, length_prepared|].
  rewrite (assigned_seeds_prepared aConfig k) by done.
  revert Hk. unfold construction_of.
  destruct (Config.mAlgorithm aConfig); intros [= <-]; cbn [seed_argument];
    try (split_and!;
         [ reflexivity
         | apply NoDup_wrapped_seeds; lia
         | intros Hb Hfit; by apply seeds_exact ]).
  - unfold slots. erewrite const_fmap; [by rewrite length_seq|done].
Qed.

(** C7.  For every worker count W >= 1, when all W instances are
    constructed and before any iteration call is made, the configured
    [mMaxPathLength] is assigned to each of the W instances. *)
Theorem max_path_length_assigned_before_dispatch env aConfig k fb0 :
  construction_of aConfig = Some k ->
  1 <= Config.mNumThreads aConfig ->
  Forall (fun e : nat * Z => (e.1 < Z.to_nat (Config.mNumThreads aConfig))%nat)
         (omp_schedule env (effective_iterations aConfig)) ->
  exists iterations m0 duration m' later,
    setup aConfig (entry fb0) = Some (iterations, m0) /\
    length (renderers m0) = Z.to_nat (Config.mNumThreads aConfig) /\
    (forall i, (i < Z.to_nat (Config.mNumThreads aConfig))%nat ->
       exists r, renderers m0 !! i = Some (Some r) /\
                 AbstractRenderer.construction r = k i /\
                 AbstractRenderer.mMaxPathLength r = Config.mMaxPathLength aConfig /\
                 AbstractRenderer.iterations_run r = []) /\
    history m0
    = ((fun i => EvNew i (k i)) <$> slots (Config.mNumThreads aConfig)) ++
      ((fun i => EvSetMaxPathLength i (Config.mMaxPathLength aConfig))
         <$> slots (Config.mNumThreads aConfig)) /\
    run_calls (history m0) = [] /\
    render env aConfig (entry fb0) = Some (duration, m') /\
    history m' = history m0 ++ later /\
    run_calls later = omp_schedule env (effective_iterations aConfig).
Proof.
  intros Hk Hn Hthreads.
  eexists _, _, _, _, _. split; [apply (setup_run _ k); [done|lia]|].
  cbn [renderers history entry app]. split_and!.
  - by rewrite length_fmap, length_prepared.
  - intros i Hi. unfold prepared.
    exists (AbstractRenderer.set_mMaxPathLength (Config.mMaxPathLength aConfig)
              (constructed (k i))).
    split; [|done].
    rewrite !list_lookup_fmap. unfold slots. by rewrite lookup_seq_lt by done.
  - done.
  - apply run_calls_none. unfold setup_history.
    apply Forall_app. split; apply Forall_fmap, Forall_forall; done.
  - apply render_run; [done|lia|done].
  - cbn [history entry app]. rewrite <- !app_assoc. reflexivity.
  - rewrite run_calls_app, run_calls_cons_other, run_calls_run_events by done.
    rewrite run_calls_cons_other, run_calls_app, run_calls_merge_events by done.
    rewrite run_calls_cons_other by done.
    rewrite run_calls_none; [by rewrite app_nil_r|].
    apply Forall_fmap, Forall_forall. done.
Qed.

End Construction.

(** ** The dispatch phase and its timer *)

Section Iterations.
Context {ext : Externals}.

(** C4.  For every worker count W >= 1 and iteration budget I >= 1 the
    dispatch phase makes exactly I iteration calls: each index of 0..I-1
    is passed to [RunIteration] exactly once, on the instance of exactly
    one worker, none twice and none skipped, and the phase is over (the
    second clock reading) only after all of them. *)
Theorem dispatch_runs_each_index_once env numThreads iterations rs m :
  1 <= numThreads ->
  1 <= iterations ->
  renderers m = Some <$> rs ->
  length rs = Z.to_nat numThreads ->
  omp_conforming env numThreads iterations ->
  exists t m' calls,
    timed_dispatch env iterations m = Some (t, m') /\
    history m' = history m ++ [EvClock] ++ (run_event <$> calls) ++ [EvClock] /\
    length calls = Z.to_nat iterations /\
    (forall e, e ∈ calls -> 0 <= e.2 < iterations /\ (e.1 < Z.to_nat numThreads)%nat) /\
    (forall idx, 0 <= idx < iterations ->
       exists threadId,
         (threadId < Z.to_nat numThreads)%nat /\
         filter (fun e : nat * Z => e.2 = idx) calls = [(threadId, idx)]) /\
    length (renderers m') = Z.to_nat numThreads /\
    (forall j r, rs !! j = Some r ->
       renderers m' !! j = Some (Some (ran_also (indices_of_thread j calls) r))).
Proof.
  intros Hn Hi Hrs Hlen Homp.
  pose proof (conforming_threads _ _ _ Homp) as Hthreads.
  exists (clock env (history m),
          clock env (history m ++ [EvClock] ++ (run_event <$> omp_schedule env iterations))).
  eexists _, (omp_schedule env iterations).
  split; [apply (timed_dispatch_run env iterations rs); [done|by rewrite Hlen]|].
  cbn [renderers history]. split_and!.
  - done.
  - by eapply conforming_length.
  - intros e He. split.
    + apply elem_of_iteration_space. destruct Homp as [Hperm _].
      rewrite <- Hperm. apply list_elem_of_fmap. by exists e.
    + rewrite Forall_forall in Hthreads. by apply Hthreads.
  - intros idx Hidx. by eapply conforming_once.
  - by rewrite length_fmap, length_run_schedule.
  - intros j r Hj. by rewrite list_lookup_fmap, run_schedule_lookup, Hj.
Qed.

(** C5.  For the algorithm without progressive semantics (eye
    light: iterations have no meaning for it) the iteration budget the
    dispatch phase uses is 1 whatever the configured budget, and a run
    configured with any budget is the run configured with budget 1. *)
Theorem single_pass_budget_is_one env aConfig n m :
  Config.mAlgorithm aConfig = Config.kEyeLight ->
  0 <= Config.mNumThreads aConfig ->
  (exists m0, setup (set_mIterations n aConfig) m = Some (1, m0)) /\
  render env (set_mIterations n aConfig) m = render env (set_mIterations 1 aConfig) m.
Proof.
  intros Halg Hn. split.
  - eexists.
    pose proof (setup_run (set_mIterations n aConfig) (fun _ => EyeLight) m) as Hrun.
    unfold construction_of, effective_iterations, set_mIterations in Hrun.
    cbn [Config.mAlgorithm Config.mNumThreads] in Hrun.
    rewrite Halg in Hrun. unfold set_mIterations. rewrite Halg. by apply Hrun.
  - assert (Hsetup : setup (set_mIterations n aConfig) = setup (set_mIterations 1 aConfig)).
    { unfold setup, construct_renderers, set_mIterations.
      cbn [Config.mAlgorithm Config.mNumThreads Config.mIterations
           Config.mBaseSeed Config.mMaxPathLength].
      by rewrite Halg. }
    unfold render. rewrite Hsetup. reflexivity.
Qed.

(** The clock does not matter to the machine: two environments with the
    same schedule leave the same framebuffer, array and history. *)
Lemma clock_frame env env' aConfig m :
  omp_schedule env = omp_schedule env' ->
  snd <$> render env aConfig m = snd <$> render env' aConfig m.
Proof.
  intros Hsched. unfold render, bind.
  destruct (setup aConfig m) as [[iterations m0]|]; [|done].
  unfold timed_dispatch, bind, read_clock, run_iterations. rewrite Hsched.
  destruct (for_each _ run_one _) as [[[] m1]|]; [|done].
  unfold ret. cbn [fst snd].
  destruct (merge _ _) as [[u m2]|]; [|done].
  destruct (teardown _ _) as [[[] m3]|]; done.
Qed.

(** C8.  The duration [render] returns is measured over the dispatch
    phase only: the clock is read right before the iteration loop and right
    after it, so that construction, merge and teardown lie outside the two
    readings; and the readings do not enter the aggregate framebuffer. *)
Theorem timer_brackets_dispatch_only env aConfig k fb0 :
  construction_of aConfig = Some k ->
  0 <= Config.mNumThreads aConfig ->
  Forall (fun e : nat * Z => (e.1 < Z.to_nat (Config.mNumThreads aConfig))%nat)
         (omp_schedule env (effective_iterations aConfig)) ->
  exists duration m' before runs after,
    render env aConfig (entry fb0) = Some (duration, m') /\
    history m' = before ++ [EvClock] ++ runs ++ [EvClock] ++ after /\
    Forall (fun ev => is_setup_event ev = true) before /\
    length before = (2 * Z.to_nat (Config.mNumThreads aConfig))%nat /\
    runs = run_event <$> omp_schedule env (effective_iterations aConfig) /\
    Forall (fun ev => is_merge_or_teardown_event ev = true) after /\
    duration = elapsed (clock env before) (clock env (before ++ [EvClock] ++ runs)) /\
    forall clock',
      mFramebuffer <$> (snd <$> render {| omp_schedule := omp_schedule env;
                                          clock := clock' |} aConfig (entry fb0))
      = Some (mFramebuffer m').
Proof.
  intros Hk Hn Hthreads.
  eexists _, _, (setup_history aConfig k),
    (run_event <$> omp_schedule env (effective_iterations aConfig)),
    (merge_events 0 (dispatched env aConfig k) 0
       ++ [EvScale (normalisation (merge_loop (dispatched env aConfig k) fb0 0).2)]
       ++ (EvDelete <$> slots (Config.mNumThreads aConfig))).
  split; [apply render_run; [done|lia|done]|].
  cbn [history mFramebuffer entry]. rewrite app_nil_l. split_and!.
  - rewrite <- !app_assoc. reflexivity.
  - unfold setup_history. apply Forall_app. split; apply Forall_fmap, Forall_forall; done.
  - unfold setup_history. rewrite length_app, !length_fmap, !length_slots. lia.
  - reflexivity.
  - apply Forall_app. split; [apply merge_events_kind|].
    constructor; [done|]. apply Forall_fmap, Forall_forall. done.
  - reflexivity.
  - intros clock'.
    rewrite <- (clock_frame env {| omp_schedule := omp_schedule env; clock := clock' |}
                  aConfig (entry fb0) eq_refl).
    rewrite (render_run env aConfig k) by (done || lia). reflexivity.
Qed.

End Iterations.

(** ** Eye light *)

Section EyeLightRuns.
Context {ext : Externals}.

Lemma prepared_unused aConfig k r :
  r ∈ prepared aConfig k -> AbstractRenderer.WasUsed r = false.
Proof.
  unfold prepared. intros (i & -> & _)%list_elem_of_fmap. reflexivity.
Qed.

(** One call on unused instances leaves exactly one of them used. *)
Lemma used_after_one_call idx : forall rs threadId r0,
  rs !! threadId = Some r0 ->
  (forall r, r ∈ rs -> AbstractRenderer.WasUsed r = false) ->
  used_instances (alter (AbstractRenderer.RunIteration idx) threadId rs)
  = [AbstractRenderer.RunIteration idx r0].
Proof.
  unfold used_instances.
  induction rs as [|r rs IH]; intros t r0 Ht Hunused; [done|].
  assert (Hrest : filter (fun r => AbstractRenderer.WasUsed r = true) rs = []).
  { apply (merge_loop_unused rs []). intros; apply Hunused; by right. }
  destruct t as [|t]; cbn in Ht; cbn [alter list_alter].
  - injection Ht as ->. rewrite filter_cons_True; [by rewrite Hrest|].
    unfold AbstractRenderer.WasUsed, AbstractRenderer.RunIteration. cbn.
    by destruct (AbstractRenderer.iterations_run r0).
  - rewrite filter_cons_False.
    + apply IH; [done|]. intros; apply Hunused; by right.
    + rewrite (Hunused r) by left. done.
Qed.

(** Without an iteration to run, no instance is used. *)
Lemma no_iteration_no_used_instance env aConfig k r :
  omp_conforming env (Config.mNumThreads aConfig) (effective_iterations aConfig) ->
  effective_iterations aConfig <= 0 ->
  r ∈ dispatched env aConfig k -> AbstractRenderer.WasUsed r = false.
Proof.
  intros Homp Hnone. unfold dispatched.
  rewrite (conforming_none _ _ _ Homp Hnone). apply prepared_unused.
Qed.

(** C9.  For the eye-light selector [render] executes exactly one
    iteration whatever the configured budget (zero and negative budgets
    included); so exactly one instance ends up used, the normalisation
    divides by 1, and the case of no used instance cannot arise. *)
Theorem eyelight_runs_exactly_one_iteration env aConfig fb0 :
  Config.mAlgorithm aConfig = Config.kEyeLight ->
  1 <= Config.mNumThreads aConfig <= INT_MAX ->
  omp_conforming env (Config.mNumThreads aConfig) 1 ->
  exists threadId r t m1 duration m',
    bind (setup aConfig) (timed_dispatch env) (entry fb0) = Some (t, m1) /\
    renderers m1 = Some <$> dispatched env aConfig (fun _ => EyeLight) /\
    render env aConfig (entry fb0) = Some (duration, m') /\
    (threadId < Z.to_nat (Config.mNumThreads aConfig))%nat /\
    run_calls (history m') = [(threadId, 0)] /\
    used_instances (dispatched env aConfig (fun _ => EyeLight)) = [r] /\
    merge_loop (dispatched env aConfig (fun _ => EyeLight)) fb0 0 = (extract r, 1) /\
    EvScale (float_div float_one (float_of_int 1)) ∈ history m' /\
    mFramebuffer m' = Scale (float_div float_one (float_of_int 1)) (extract r) /\
    aggregate_spec (dispatched env aConfig (fun _ => EyeLight)) = inr (mFramebuffer m').
Proof.
  intros Halg Hn Homp.
  assert (Hk : construction_of aConfig = Some (fun _ => EyeLight))
    by (unfold construction_of; by rewrite Halg).
  assert (Hone : effective_iterations aConfig = 1)
    by (unfold effective_iterations; by rewrite Halg).
  destruct (conforming_single _ _ Homp) as (t & Ht & Hsched).
  assert (Hthreads : Forall (fun e : nat * Z =>
                               (e.1 < Z.to_nat (Config.mNumThreads aConfig))%nat)
                            (omp_schedule env (effective_iterations aConfig))).
  { rewrite Hone, Hsched. by constructor. }
  set (k := fun _ : nat => EyeLight) in *.
  destruct (lookup_lt_is_Some_2 (prepared aConfig k) t) as [r0 Hr0];
    [by rewrite length_prepared|].
  set (r := AbstractRenderer.RunIteration 0 r0).
  assert (Hrs : dispatched env aConfig k
                = alter (AbstractRenderer.RunIteration 0) t (prepared aConfig k)).
  { unfold dispatched. rewrite Hone, Hsched. reflexivity. }
  assert (HU : used_instances (dispatched env aConfig k) = [r]).
  { rewrite Hrs. apply used_after_one_call; [done|]. apply prepared_unused. }
  assert (Hloop : merge_loop (dispatched env aConfig k) fb0 0 = (extract r, 1)).
  { rewrite merge_loop_used, HU; [done|done|].
    rewrite Hrs, length_alter, length_prepared. lia. }
  destruct (dispatch_reached env aConfig k (entry fb0) Hk ltac:(lia) Hthreads)
    as (t01 & m1 & Hreach & Hm1 & _).
  exists t, r, t01, m1. eexists _, _. split; [exact Hreach|]. split; [exact Hm1|].
  split; [apply (render_run env aConfig k); [done|lia|done]|].
  cbn [history mFramebuffer entry]. rewrite Hloop. cbn [fst snd].
  unfold normalisation. split_and!; [done| |done|done| |done|].
  - rewrite Hone, Hsched, app_nil_l.
    rewrite !run_calls_app, run_calls_merge_events.
    rewrite (run_calls_none (setup_history _ _)); cycle 1.
    { unfold setup_history. apply Forall_app.
      split; apply Forall_fmap, Forall_forall; done. }
    rewrite (run_calls_none (EvDelete <$> _)); cycle 1.
    { apply Forall_fmap, Forall_forall. done. }
    reflexivity.
  - rewrite !elem_of_app, !list_elem_of_singleton. right; right; right; left. reflexivity.
  - unfold aggregate_spec. rewrite HU. reflexivity.
Qed.

End EyeLightRuns.

(** ** The lookup tables of [Config] *)

(** C6.  The range checks in front of the two 7-entry tables of
    [GetName] and [GetAcronym] are one off: the unknown marker is returned
    only for selector values below 0 or above 7, so the value 7 passes the
    check and indexes a table whose valid indices are 0..6. *)
Theorem lookup_guards_admit_seven :
  length Config.algorithmNames = 7%nat /\
  length Config.algorithmAcronyms = 7%nat /\
  (forall v, Config.GetName_at v = Str "Uknown algorithm" <-> v < 0 \/ v > 7) /\
  (forall v, Config.GetAcronym_at v = Str "uknown" <-> v < 0 \/ v > 7) /\
  Config.GetName_at 7 = PastTheEnd 7 7 /\
  Config.GetAcronym_at 7 = PastTheEnd 7 7 /\
  (forall v, (exists s, Config.GetName_at v = Str s /\ s ≠ "Uknown algorithm"%string)
             <-> 0 <= v <= 6) /\
  (forall v, (exists s, Config.GetAcronym_at v = Str s /\ s ≠ "uknown"%string)
             <-> 0 <= v <= 6) /\
  (forall i n s p,
     Config.GetName (Config.Build Config.kAlgorithmMax i n s p) = PastTheEnd 7 7 /\
     Config.GetAcronym (Config.Build Config.kAlgorithmMax i n s p) = PastTheEnd 7 7).
Proof.
  assert (Hcases : forall v, 0 <= v <= 7 ->
            v = 0 \/ v = 1 \/ v = 2 \/ v = 3 \/ v = 4 \/ v = 5 \/ v = 6 \/ v = 7) by lia.
  split_and!; try reflexivity.
  - intros v. unfold Config.GetName_at.
    destruct (Z.ltb_spec v 0); [cbn; split; [lia|done]|].
    destruct (Z.gtb_spec v 7); [cbn; split; [lia|done]|].
    cbn [orb]. split; [|lia].
    destruct (Hcases v ltac:(lia)) as [->|[->|[->|[->|[->|[->|[->| ->]]]]]]]; discriminate.
  - intros v. unfold Config.GetAcronym_at.
    destruct (Z.ltb_spec v 0); [cbn; split; [lia|done]|].
    destruct (Z.gtb_spec v 7); [cbn; split; [lia|done]|].
    cbn [orb]. split; [|lia].
    destruct (Hcases v ltac:(lia)) as [->|[->|[->|[->|[->|[->|[->| ->]]]]]]]; discriminate.
  - intros v. unfold Config.GetName_at.
    destruct (Z.ltb_spec v 0); [cbn; split; [intros (s & [= <-] & Hs); done|lia]|].
    destruct (Z.gtb_spec v 7); [cbn; split; [intros (s & [= <-] & Hs); done|lia]|].
    cbn [orb].
    destruct (Hcases v ltac:(lia)) as [->|[->|[->|[->|[->|[->|[->| ->]]]]]]];
      (split; [intros (s & Hs & _); try discriminate; lia
              | intros Hv; first [lia | eexists; split; [reflexivity|discriminate]]]).
  - intros v. unfold Config.GetAcronym_at.
    destruct (Z.ltb_spec v 0); [cbn; split; [intros (s & [= <-] & Hs); done|lia]|].
    destruct (Z.gtb_spec v 7); [cbn; split; [intros (s & [= <-] & Hs); done|lia]|].
    cbn [orb].
    destruct (Hcases v ltac:(lia)) as [->|[->|[->|[->|[->|[->|[->| ->]]]]]]];
      (split; [intros (s & Hs & _); try discriminate; lia
              | intros Hv; first [lia | eexists; split; [reflexivity|discriminate]]]).
  - intros i n s p. done.
Qed.

(** ** The batch sweep *)

Section SweepProperties.
Context {flags : BoxMask}.

Lemma sceneConfigCount_value : sceneConfigCount = 12.
Proof. reflexivity. Qed.

Lemma sceneId_of_bounds sceneId2 :
  0 <= sceneId2 -> 0 <= sceneId_of sceneId2 < sceneConfigCount.
Proof.
  intros H. unfold sceneId_of. rewrite sceneConfigCount_value.
  apply Z.rem_bound_pos; lia.
Qed.

Lemma sceneId_of_second_half sceneId2 :
  0 <= sceneId2 -> sceneId_of (sceneId2 + sceneConfigCount) = sceneId_of sceneId2.
Proof.
  intros H. unfold sceneId_of. rewrite sceneConfigCount_value.
  rewrite !Z.rem_mod_nonneg by lia.
  replace (sceneId2 + 12) with (sceneId2 + 1 * 12) by lia.
  apply Z_mod_plus_full.
Qed.

Lemma lor_keeps_flag mask flag : Z.land (Z.lor mask flag) flag = flag.
Proof.
  apply Z.bits_inj'. intros n Hn.
  rewrite Z.land_spec, Z.lor_spec.
  destruct (Z.testbit mask n), (Z.testbit flag n); reflexivity.
Qed.

(** C10.  On every pass [sceneId2] of the doubled sweep, the reduced
    index [sceneId2 % sceneConfigCount] is below [sceneConfigCount], so the
    glossy-floor flag is or-ed into the mask on every pass, and the second
    half of the sweep builds the masks of the first half again. *)
Theorem sweep_is_glossy_on_every_pass sceneId2 :
  0 <= sceneId2 < sceneConfigCount * 2 ->
  0 <= sceneId_of sceneId2 < sceneConfigCount /\
  glossy_guard sceneId2 = true /\
  (exists sc, sceneConfigs !! Z.to_nat (sceneId_of sceneId2) = Some sc /\
              sweep_mask sceneId2 = Some (Z.lor (mMask sc) kGlossyFloor) /\
              Z.land (Z.lor (mMask sc) kGlossyFloor) kGlossyFloor = kGlossyFloor) /\
  (sceneId2 < sceneConfigCount ->
   sweep_mask (sceneId2 + sceneConfigCount) = sweep_mask sceneId2) /\
  sweep_masks
  = (sweep_mask <$> iteration_space sceneConfigCount)
      ++ (sweep_mask <$> iteration_space sceneConfigCount).
Proof.
  intros Hrange.
  pose proof (sceneId_of_bounds sceneId2 ltac:(lia)) as Hid.
  assert (Hguard : (sceneId_of sceneId2 <? sceneConfigCount) = true)
    by (apply Z.ltb_lt; lia).
  split_and!; [lia|lia|exact Hguard| | |reflexivity].
  - destruct (lookup_lt_is_Some_2 sceneConfigs (Z.to_nat (sceneId_of sceneId2)))
      as [sc Hsc].
    { rewrite sceneConfigCount_value in Hid. change (length sceneConfigs) with 12%nat. lia. }
    exists sc. split_and!; [done| |apply lor_keeps_flag].
    unfold sweep_mask. by rewrite Hsc, Hguard.
  - intros Hfirst. unfold sweep_mask.
    by rewrite sceneId_of_second_half by lia.
Qed.

End SweepProperties.

(** * The harness on concrete inputs *)

(** The aggregation example: two used workers with the partial buffers
    [2,4] and [6,0]; the sum before scaling is [8,4], the aggregate [4,2]. *)
Example aggregation_of_two_workers :
  let rs := [ran (PathTracer 1234) [2; 4]; ran (PathTracer 1235) [6; 0]] in
  (extract <$> rs) = [[2; 4]; [6; 0]]%Q /\
  merge_loop rs [9; 9]%Q 0 = ([8; 4]%Q, 2) /\
  aggregate_spec rs = inr [4; 2]%Q.
Proof. vm_compute. done. Qed.

(** An unused worker between two used ones is skipped and not counted. *)
Example aggregation_skips_unused :
  let rs := [ran (PathTracer 1234) [2; 4]; ran (PathTracer 1235) [];
             ran (PathTracer 1236) [6; 0]] in
  merge_loop rs [9; 9]%Q 0 = ([8; 4]%Q, 2) /\
  aggregate_spec rs = inr [4; 2]%Q.
Proof. vm_compute. done. Qed.

Lemma two_threads iterations : omp_conforming (cyclic 2) 2 iterations.
Proof. apply (cyclic_conforming 2 iterations). lia. Qed.

(** Path tracing, two threads, four iterations: thread 0 runs 0 and 2,
    thread 1 runs 1 and 3; the aggregate is the mean of the two buffers. *)
Lemma render_aggregate_is_mean_of_used_witness :
  exists duration m',
    render (cyclic 2) (sample_config Config.kPathTracing 4) (entry [7; 7]%Q)
    = Some (duration, m') /\
    inr (mFramebuffer m')
    = aggregate_spec (dispatched (cyclic 2) (sample_config Config.kPathTracing 4)
                        path_tracer_seeds) /\
    mFramebuffer m' = [1 # 2; 5 # 2]%Q.
Proof.
  destruct (render_aggregate_is_mean_of_used (ext := rational)
              (cyclic 2) (sample_config Config.kPathTracing 4) path_tracer_seeds
              [7; 7]%Q)
    as (t & m1 & duration & m' & _ & _ & Hrender & Hspec & _).
  - reflexivity.
  - unfold INT_MAX. cbn. lia.
  - exact (two_threads 4).
  - exists (ran_also [0; 2] (AbstractRenderer.set_mMaxPathLength 10
                               (constructed (path_tracer_seeds 0)))).
    split; [|reflexivity]. vm_compute. apply list_elem_of_here.
  - exists duration, m'. split_and!; [exact Hrender|exact Hspec|].
    assert (Hvalue : aggregate_spec (dispatched (cyclic 2)
                        (sample_config Config.kPathTracing 4) path_tracer_seeds)
                     = inr [1 # 2; 5 # 2]%Q) by (vm_compute; reflexivity).
    rewrite Hvalue in Hspec. by injection Hspec.
Defined.

(** C2 as stated does not hold.  With an iteration budget of 0 no
    instance is used and the specified aggregation is [EmptyResultError],
    yet [render] returns to its caller: the duration as usual, and the
    caller's buffer [2,4] scaled by [1.f / 0]. *)
Lemma render_with_empty_budget_returns_a_buffer :
  used_instances (dispatched (cyclic 2) (sample_config Config.kPathTracing 0)
                    path_tracer_seeds) = [] /\
  aggregate_spec (dispatched (cyclic 2) (sample_config Config.kPathTracing 0)
                    path_tracer_seeds) = inl EmptyResultError /\
  observe (render (cyclic 2) (sample_config Config.kPathTracing 0) (entry [2; 4]%Q))
  = Some (Scale (float_div float_one (float_of_int 0)) [2; 4]%Q, elapsed 4 5).
Proof. vm_compute. done. Qed.

Lemma render_without_used_instance_witness :
  exists t m1 duration m',
    bind (setup (sample_config Config.kPathTracing 0)) (timed_dispatch (cyclic 2))
      (entry [2; 4]%Q) = Some (t, m1) /\
    renderers m1 = Some <$> dispatched (cyclic 2) (sample_config Config.kPathTracing 0)
                              path_tracer_seeds /\
    render (cyclic 2) (sample_config Config.kPathTracing 0) (entry [2; 4]%Q)
    = Some (duration, m') /\
    aggregate_spec (dispatched (cyclic 2) (sample_config Config.kPathTracing 0)
                      path_tracer_seeds) = inl EmptyResultError /\
    mFramebuffer m' = Scale (normalisation 0) [2; 4]%Q /\
    EvScale (normalisation 0) ∈ history m' /\
    forall i, (EvGetFramebuffer i ∉ history m') /\ (EvAdd i ∉ history m').
Proof.
  apply (render_without_used_instance (ext := rational)
           (cyclic 2) (sample_config Config.kPathTracing 0) path_tracer_seeds).
  - reflexivity.
  - unfold INT_MAX. cbn. lia.
  - exact (two_threads 0).
  - intros r Hr.
    apply (no_iteration_no_used_instance (ext := rational)
             (cyclic 2) (sample_config Config.kPathTracing 0) path_tracer_seeds r).
    + exact (two_threads 0).
    + cbn. lia.
    + exact Hr.
Defined.

(** C3 as stated does not hold for the eye-light selector: its instances
    are constructed from the scene alone, not with the seeds 1234 and 1235. *)
Lemma eyelight_instances_are_not_seeded :
  exists m,
    setup (sample_config Config.kEyeLight 10) (entry (ext := rational) []) = Some (1, m) /\
    assigned_seeds m = [None; None] /\
    assigned_seeds m ≠ [Some (1234 + 0); Some (1234 + 1)].
Proof. eexists. split; [vm_compute; reflexivity|]. split; [reflexivity|discriminate]. Qed.

Lemma seeds_assigned_per_slot_witness :
  exists m,
    setup (sample_config Config.kVertexConnectionMerging 10) (entry (ext := rational) [])
    = Some (10, m) /\
    assigned_seeds m = [Some 1234; Some 1235] /\
    NoDup (assigned_seeds m).
Proof.
  destruct (seeds_assigned_per_slot (ext := rational)
              (sample_config Config.kVertexConnectionMerging 10)
              (fun i => VertexCM VertexCM.kVcm (int_add 1234 (Z.of_nat i)))
              (@nil Q))
    as (m & Hsetup & _ & Hseeds & Hdistinct & _).
  - reflexivity.
  - unfold INT_MAX. cbn. lia.
  - exists m. split_and!; [exact Hsetup| |exact Hdistinct].
    rewrite Hseeds. reflexivity.
Defined.

Lemma dispatch_runs_each_index_once_witness :
  exists t m' calls,
    timed_dispatch (cyclic 2) 4
      (@Build_Machine rational
         (Some <$> prepared (sample_config Config.kPathTracing 4) path_tracer_seeds)
         [] [])
    = Some (t, m') /\
    length calls = 4%nat /\
    run_calls (history m') = calls /\
    forall idx, 0 <= idx < 4 ->
      exists threadId,
        (threadId < 2)%nat /\
        filter (fun e : nat * Z => e.2 = idx) calls = [(threadId, idx)].
Proof.
  destruct (dispatch_runs_each_index_once (ext := rational) (cyclic 2) 2 4
              (prepared (sample_config Config.kPathTracing 4) path_tracer_seeds)
              (@Build_Machine rational
                 (Some <$> prepared (sample_config Config.kPathTracing 4)
                             path_tracer_seeds)
                 [] []))
    as (t & m' & calls & Hrun & Hhistory & Hlen & _ & Honce & _).
  - lia.
  - lia.
  - reflexivity.
  - reflexivity.
  - exact (two_threads 4).
  - exists t, m', calls. split_and!; [exact Hrun|exact Hlen| |exact Honce].
    rewrite Hhistory. cbn [history app].
    rewrite run_calls_cons_other, run_calls_app, run_calls_run_events by done.
    by rewrite app_nil_r.
Defined.

Lemma single_pass_budget_is_one_witness :
  (exists m0, setup (set_mIterations 10 (sample_config Config.kEyeLight 0))
                (entry (ext := rational) []) = Some (1, m0)) /\
  render (cyclic 2) (set_mIterations 10 (sample_config Config.kEyeLight 0))
    (entry (ext := rational) [])
  = render (cyclic 2) (set_mIterations 1 (sample_config Config.kEyeLight 0))
      (entry (ext := rational) []).
Proof.
  apply (single_pass_budget_is_one (ext := rational) (cyclic 2) (sample_config Config.kEyeLight 0) 10).
  - reflexivity.
  - cbn. lia.
Defined.

Lemma max_path_length_assigned_before_dispatch_witness :
  exists iterations m0 duration m' later,
    setup (sample_config Config.kBidirectionalPathTracing 4) (entry (ext := rational) [])
    = Some (iterations, m0) /\
    (forall i, (i < 2)%nat ->
       exists r, renderers m0 !! i = Some (Some r) /\
                 AbstractRenderer.mMaxPathLength r = 10 /\
                 AbstractRenderer.iterations_run r = []) /\
    run_calls (history m0) = [] /\
    render (cyclic 2) (sample_config Config.kBidirectionalPathTracing 4)
      (entry (ext := rational) []) = Some (duration, m') /\
    history m' = history m0 ++ later /\
    run_calls later = [(0%nat, 0); (1%nat, 1); (0%nat, 2); (1%nat, 3)].
Proof.
  destruct (max_path_length_assigned_before_dispatch (ext := rational)
              (cyclic 2) (sample_config Config.kBidirectionalPathTracing 4)
              (fun i => VertexCM VertexCM.kBpt (int_add 1234 (Z.of_nat i)))
              (@nil Q))
    as (iterations & m0 & duration & m' & later
        & Hsetup & _ & Hbound & _ & Hnone & Hrender & Hlater & Hcalls).
  - reflexivity.
  - cbn. lia.
  - exact (conforming_threads _ _ _ (two_threads 4)).
  - exists iterations, m0, duration, m', later.
    split_and!; [exact Hsetup| |exact Hnone|exact Hrender|exact Hlater|exact Hcalls].
    intros i Hi. destruct (Hbound i Hi) as (r & Hr & _ & Hmax & Hlog).
    exists r. split_and!; [exact Hr|exact Hmax|exact Hlog].
Defined.

Lemma timer_brackets_dispatch_only_witness :
  exists duration m' before runs after,
    render (cyclic 2) (sample_config Config.kPathTracing 4) (entry [7; 7]%Q)
    = Some (duration, m') /\
    history m' = before ++ [EvClock] ++ runs ++ [EvClock] ++ after /\
    Forall (fun ev => is_setup_event ev = true) before /\
    runs = [EvRunIteration 0 0; EvRunIteration 1 1; EvRunIteration 0 2; EvRunIteration 1 3] /\
    Forall (fun ev => is_merge_or_teardown_event ev = true) after /\
    duration = elapsed 4 9.
Proof.
  destruct (timer_brackets_dispatch_only (ext := rational)
              (cyclic 2) (sample_config Config.kPathTracing 4) path_tracer_seeds
              [7; 7]%Q)
    as (duration & m' & before & runs & after
        & Hrender & Hhistory & Hbefore & Hlen & Hruns & Hafter & Hduration & _).
  - reflexivity.
  - cbn. lia.
  - exact (conforming_threads _ _ _ (two_threads 4)).
  - exists duration, m', before, runs, after.
    split_and!; [exact Hrender|exact Hhistory|exact Hbefore|exact Hruns|exact Hafter|].
    rewrite Hduration. cbn [clock cyclic].
    rewrite !length_app, Hlen, Hruns. reflexivity.
Defined.

Lemma eyelight_runs_exactly_one_iteration_witness :
  exists threadId r duration m',
    render (cyclic 2) (sample_config Config.kEyeLight (-3)) (entry [7; 7]%Q)
    = Some (duration, m') /\
    run_calls (history m') = [(threadId, 0)] /\
    used_instances (dispatched (cyclic 2) (sample_config Config.kEyeLight (-3))
                      (fun _ => EyeLight)) = [r] /\
    EvScale (float_div float_one (float_of_int 1)) ∈ history m'.
Proof.
  destruct (eyelight_runs_exactly_one_iteration (ext := rational)
              (cyclic 2) (sample_config Config.kEyeLight (-3)) [7; 7]%Q)
    as (threadId & r & t & m1 & duration & m'
        & _ & _ & Hrender & _ & Hcalls & Hused & _ & Hscale & _).
  - reflexivity.
  - unfold INT_MAX. cbn. lia.
  - exact (two_threads 1).
  - exists threadId, r, duration, m'.
    split_and!; [exact Hrender|exact Hcalls|exact Hused|exact Hscale].
Defined.

Lemma sweep_is_glossy_on_every_pass_witness :
  @sweep_mask sample_flags (5 + 12) = @sweep_mask sample_flags 5 /\
  @sweep_mask sample_flags (5 + 12) = Some 706.
Proof.
  destruct (@sweep_is_glossy_on_every_pass sample_flags 5) as (_ & _ & _ & Hsame & _).
  - unfold sceneConfigCount. cbn. lia.
  - split; [|reflexivity]. apply Hsame. unfold sceneConfigCount. cbn. lia.
Defined.

(** * Further properties of [render] *)

Section Safety.
Context {ext : Externals}.

(** A thread number outside the array stops the parallel loop. *)
Lemma run_out_of_range sched : forall rs m,
  renderers m = Some <$> rs ->
  Exists (fun e : nat * Z => (length rs <= e.1)%nat) sched ->
  for_each sched run_one m = None.
Proof.
  induction sched as [|e sched IH]; intros rs m Hrs Hout.
  - by apply Exists_nil in Hout.
  - cbn [for_each]. destruct (decide (e.1 < length rs)%nat) as [Hin|Hin].
    + destruct (lookup_lt_is_Some_2 rs e.1 Hin) as [r Hr].
      erewrite bind_run; cycle 1.
      { apply run_one_run. by rewrite Hrs, list_lookup_fmap, Hr. }
      apply (IH (alter (AbstractRenderer.RunIteration e.2) e.1 rs)).
      * cbn [renderers]. rewrite Hrs, <- list_fmap_insert. f_equal.
        rewrite list_insert_alter. apply list_alter_ext; [|done].
        intros x Hx. congruence.
      * rewrite length_alter. apply Exists_cons in Hout as [Hout|Hout]; [lia|done].
    + apply bind_undefined. unfold run_one. apply bind_undefined.
      unfold deref. rewrite Hrs, list_lookup_fmap.
      by rewrite lookup_ge_None_2 by lia.
Qed.

(** X2.  If OpenMP runs the loop body on a thread whose number is not
    below [mNumThreads], [renderers[threadId]] lies outside the array and
    the run has no defined result. *)
Theorem render_thread_outside_array env aConfig k m :
  construction_of aConfig = Some k ->
  0 <= Config.mNumThreads aConfig ->
  Exists (fun e : nat * Z => (Z.to_nat (Config.mNumThreads aConfig) <= e.1)%nat)
         (omp_schedule env (effective_iterations aConfig)) ->
  render env aConfig m = None.
Proof.
  intros Hk Hn Hout. unfold render.
  erewrite bind_run by (by apply setup_run).
  apply bind_undefined. unfold timed_dispatch, read_clock.
  unfold bind at 1. apply bind_undefined. unfold run_iterations.
  apply (run_out_of_range _ (prepared aConfig k)); [done|].
  by rewrite length_prepared.
Qed.

(** An instance is used after the loop exactly if its thread executed an
    index. *)
Lemma used_iff_scheduled sched rs j r :
  (forall r0, r0 ∈ rs -> AbstractRenderer.WasUsed r0 = false) ->
  run_schedule sched rs !! j = Some r ->
  AbstractRenderer.WasUsed r = true <-> exists idx, (j, idx) ∈ sched.
Proof.
  intros Hunused Hj. rewrite run_schedule_lookup in Hj.
  destruct (rs !! j) as [r0|] eqn:Hr0; [|done]. injection Hj as <-.
  assert (Hlog : AbstractRenderer.iterations_run r0 = []).
  { pose proof (Hunused r0 (list_elem_of_lookup_2 _ _ _ Hr0)) as Hu.
    unfold AbstractRenderer.WasUsed in Hu.
    by destruct (AbstractRenderer.iterations_run r0). }
  unfold AbstractRenderer.WasUsed, ran_also, indices_of_thread.
  cbn [AbstractRenderer.iterations_run]. rewrite Hlog, app_nil_l.
  destruct (filter (fun e : nat * Z => e.1 = j) sched) as [|[t idx] rest] eqn:Hf.
  - cbn. split; [done|]. intros [idx Hidx].
    assert (Hin : (j, idx) ∈ filter (fun e : nat * Z => e.1 = j) sched)
      by (by apply list_elem_of_filter).
    rewrite Hf in Hin. by apply elem_of_nil in Hin.
  - cbn. split; [|done]. intros _.
    assert (Hin : (t, idx) ∈ filter (fun e : nat * Z => e.1 = j) sched)
      by (rewrite Hf; left).
    apply list_elem_of_filter in Hin as [Ht Hin]. cbn in Ht. subst t. by exists idx.
Qed.

(** One more call makes at most one more instance used. *)
Lemma used_count_step idx : forall rs threadId,
  (length (used_instances (alter (AbstractRenderer.RunIteration idx) threadId rs))
   <= S (length (used_instances rs)))%nat.
Proof.
  unfold used_instances.
  induction rs as [|r rs IH]; intros t.
  { assert (Hnil : alter (AbstractRenderer.RunIteration idx) t [] = [])
      by (by destruct t).
    rewrite Hnil, filter_nil. cbn. lia. }
  destruct t as [|t]; cbn [alter list_alter].
  - rewrite filter_cons_True; cycle 1.
    { unfold AbstractRenderer.WasUsed, AbstractRenderer.RunIteration. cbn.
      by destruct (AbstractRenderer.iterations_run r). }
    rewrite filter_cons. case_decide; cbn; lia.
  - specialize (IH t). rewrite !filter_cons. case_decide; cbn; lia.
Qed.

Lemma used_count_run_schedule sched : forall rs,
  (length (used_instances (run_schedule sched rs))
   <= length (used_instances rs) + length sched)%nat.
Proof.
  unfold run_schedule.
  induction sched as [|e sched IH]; intros rs; cbn [foldl length]; [lia|].
  specialize (IH (alter (AbstractRenderer.RunIteration e.2) e.1 rs)).
  pose proof (used_count_step e.2 rs e.1). lia.
Qed.

Lemma prepared_none_used aConfig k : used_instances (prepared aConfig k) = [].
Proof.
  apply (merge_loop_unused (prepared aConfig k) []). apply prepared_unused.
Qed.

(** With an iteration to run, the number of used instances lies between
    1 and both the worker count and the iteration count. *)
Lemma used_count_bounds env aConfig k :
  0 <= Config.mNumThreads aConfig ->
  omp_conforming env (Config.mNumThreads aConfig) (effective_iterations aConfig) ->
  1 <= effective_iterations aConfig ->
  1 <= Z.of_nat (length (used_instances (dispatched env aConfig k)))
  <= Z.min (Config.mNumThreads aConfig) (effective_iterations aConfig).
Proof.
  intros Hn Homp Hi.
  pose proof (used_count_run_schedule
                (omp_schedule env (effective_iterations aConfig))
                (prepared aConfig k)) as Hle.
  rewrite prepared_none_used, (conforming_length _ _ _ Homp) in Hle. cbn in Hle.
  pose proof (length_filter (fun r => AbstractRenderer.WasUsed r = true)
                (dispatched env aConfig k)) as Hw.
  unfold dispatched in Hw at 2. rewrite length_run_schedule, length_prepared in Hw.
  fold (used_instances (dispatched env aConfig k)) in Hw.
  fold (dispatched env aConfig k) in Hle.
  destruct (conforming_once env _ _ 0 Homp ltac:(lia)) as (t & Ht & Hfilter).
  assert (Hin : (t, 0) ∈ omp_schedule env (effective_iterations aConfig)).
  { assert (Hin : (t, 0) ∈ filter (fun e : nat * Z => e.2 = 0)
                              (omp_schedule env (effective_iterations aConfig)))
      by (rewrite Hfilter; left).
    by apply list_elem_of_filter in Hin as [_ Hin]. }
  destruct (lookup_lt_is_Some_2 (dispatched env aConfig k) t) as [r Hr].
  { unfold dispatched. by rewrite length_run_schedule, length_prepared. }
  assert (Hused : AbstractRenderer.WasUsed r = true).
  { eapply used_iff_scheduled; [apply prepared_unused|exact Hr|by exists 0]. }
  assert (Hr' : r ∈ used_instances (dispatched env aConfig k)).
  { apply list_elem_of_filter. split; [done|]. by eapply list_elem_of_lookup_2. }
  destruct (used_instances (dispatched env aConfig k)) as [|x xs] eqn:HU.
  { by apply elem_of_nil in Hr'. }
  cbn [length] in *. lia.
Qed.

End Safety.

(** ** What the history of a run shows *)

Section Histories.
Context {ext : Externals}.

Lemma omap_none {A B} (f : A -> option B) (l : list A) :
  Forall (fun x => f x = None) l -> omap f l = [].
Proof. induction 1 as [|x l Hx _ IH]; [done|]. cbn. by rewrite Hx. Qed.

(** A run, with its history split where the merge loop starts. *)
Lemma render_history env aConfig k fb0 :
  construction_of aConfig = Some k ->
  0 <= Config.mNumThreads aConfig ->
  Forall (fun e : nat * Z => (e.1 < Z.to_nat (Config.mNumThreads aConfig))%nat)
         (omp_schedule env (effective_iterations aConfig)) ->
  exists duration m' pre,
    render env aConfig (entry fb0) = Some (duration, m') /\
    renderers m' = [] /\
    mFramebuffer m'
    = Scale (normalisation (merge_loop (dispatched env aConfig k) fb0 0).2)
        (merge_loop (dispatched env aConfig k) fb0 0).1 /\
    history m'
    = pre ++ merge_events 0 (dispatched env aConfig k) 0
          ++ [EvScale (normalisation (merge_loop (dispatched env aConfig k) fb0 0).2)]
          ++ (EvDelete <$> slots (Config.mNumThreads aConfig)) /\
    Forall (fun ev => is_merge_or_teardown_event ev = false) pre /\
    run_calls pre = omp_schedule env (effective_iterations aConfig).
Proof.
  intros Hk Hn Hthreads.
  eexists _, _,
    (setup_history aConfig k ++ [EvClock]
       ++ (run_event <$> omp_schedule env (effective_iterations aConfig)) ++ [EvClock]).
  split; [apply render_run; [done|lia|done]|].
  cbn [renderers mFramebuffer history entry]. rewrite app_nil_l.
  split_and!; [done|done| | |].
  - by rewrite <- !app_assoc.
  - unfold setup_history. rewrite !Forall_app. split_and!.
    + apply Forall_fmap, Forall_forall. done.
    + apply Forall_fmap, Forall_forall. done.
    + by constructor.
    + apply Forall_fmap, Forall_forall. done.
    + by constructor.
  - rewrite !run_calls_app, run_calls_run_events.
    rewrite (run_calls_none (setup_history _ _)); cycle 1.
    { unfold setup_history. apply Forall_app.
      split; apply Forall_fmap, Forall_forall; done. }
    cbn. by rewrite app_nil_r.
Qed.

Lemma used_slots_length i rs :
  length (used_slots i rs) = length (used_instances rs).
Proof.
  unfold used_instances. revert i.
  induction rs as [|r rs IH]; intros i; cbn [used_slots]; [done|].
  rewrite filter_cons. destruct (AbstractRenderer.WasUsed r) eqn:Hr.
  - rewrite decide_True by done. cbn. by rewrite IH.
  - rewrite decide_False by done. apply IH.
Qed.

(** The calls of the merge loop: [WasUsed] on every slot, [GetFramebuffer]
    on the used ones, [Add] on the used ones but the first. *)
Lemma merge_events_observed rs : forall i usedRenderers,
  0 <= usedRenderers ->
  usedRenderers + Z.of_nat (length rs) <= INT_MAX ->
  was_used_slots (merge_events i rs usedRenderers) = seq i (length rs) /\
  get_framebuffer_slots (merge_events i rs usedRenderers) = used_slots i rs /\
  add_slots (merge_events i rs usedRenderers)
  = (if usedRenderers =? 0 then tail (used_slots i rs) else used_slots i rs).
Proof.
  unfold was_used_slots, get_framebuffer_slots, add_slots.
  induction rs as [|r rs IH]; intros i u Hu Hlen;
    cbn [merge_events used_slots length seq] in *.
  - by destruct (u =? 0).
  - destruct (AbstractRenderer.WasUsed r).
    + rewrite int_add_one_counter by lia.
      destruct (IH (S i) (u + 1)) as (IH1 & IH2 & IH3); [lia..|].
      rewrite (proj2 (Z.eqb_neq (u + 1) 0)) in IH3 by lia.
      destruct (u =? 0); cbn; rewrite ?IH1, ?IH2, ?IH3; done.
    + destruct (IH (S i) u) as (IH1 & IH2 & IH3); [lia..|].
      cbn. rewrite IH1, IH2, IH3. done.
Qed.

(** The merge loop makes no other call than these three. *)
Lemma merge_events_calls rs : forall i usedRenderers,
  Forall (fun ev => match ev with
                    | EvWasUsed _ _ | EvGetFramebuffer _ | EvAdd _ => True
                    | _ => False
                    end)
         (merge_events i rs usedRenderers).
Proof.
  induction rs as [|r rs IH]; intros i u; cbn [merge_events]; [done|].
  constructor; [done|].
  destruct (AbstractRenderer.WasUsed r); [|apply IH].
  apply Forall_app. split; [|apply IH].
  destruct (u =? 0); repeat constructor.
Qed.

End Histories.

(** ** Runs as their caller sees them *)

Section Runs_observed.
Context {ext : Externals}.

(** X3.  What the parallel loop leaves in the instances, and with it the
    framebuffer [render] returns, depends only on the indices each thread
    executes and their order within the thread, not on how the executions
    of different threads interleave. *)
Theorem dispatch_ignores_interleaving env env' aConfig k fb0 :
  construction_of aConfig = Some k ->
  0 <= Config.mNumThreads aConfig ->
  Forall (fun e : nat * Z => (e.1 < Z.to_nat (Config.mNumThreads aConfig))%nat)
         (omp_schedule env (effective_iterations aConfig)) ->
  Forall (fun e : nat * Z => (e.1 < Z.to_nat (Config.mNumThreads aConfig))%nat)
         (omp_schedule env' (effective_iterations aConfig)) ->
  (forall j, indices_of_thread j (omp_schedule env (effective_iterations aConfig))
             = indices_of_thread j (omp_schedule env' (effective_iterations aConfig))) ->
  dispatched env aConfig k = dispatched env' aConfig k /\
  exists duration duration' m' m'',
    render env aConfig (entry fb0) = Some (duration, m') /\
    render env' aConfig (entry fb0) = Some (duration', m'') /\
    mFramebuffer m' = mFramebuffer m''.
Proof.
  intros Hk Hn Hthreads Hthreads' Hsame.
  assert (Hrs : dispatched env aConfig k = dispatched env' aConfig k).
  { unfold dispatched. apply list_eq. intros j.
    by rewrite !run_schedule_lookup, Hsame. }
  split; [exact Hrs|].
  destruct (render_history env aConfig k fb0 Hk Hn Hthreads)
    as (d & m' & pre & Hrun & _ & Hfb & _).
  destruct (render_history env' aConfig k fb0 Hk Hn Hthreads')
    as (d' & m'' & pre' & Hrun' & _ & Hfb' & _).
  exists d, d', m', m''. split_and!; [done|done|].
  by rewrite Hfb, Hfb', Hrs.
Qed.

(** X4.  In a run with at least one iteration, an instance ends up used
    exactly if its thread executed an index; the number of used instances,
    by which the aggregate is divided, is at least 1 and at most both the
    worker count and the iteration count. *)
Theorem used_instances_are_the_scheduled_threads env aConfig k fb0 :
  construction_of aConfig = Some k ->
  1 <= Config.mNumThreads aConfig <= INT_MAX ->
  omp_conforming env (Config.mNumThreads aConfig) (effective_iterations aConfig) ->
  1 <= effective_iterations aConfig ->
  (forall j r, dispatched env aConfig k !! j = Some r ->
     AbstractRenderer.WasUsed r = true
     <-> exists idx, (j, idx) ∈ omp_schedule env (effective_iterations aConfig)) /\
  1 <= Z.of_nat (length (used_instances (dispatched env aConfig k)))
    <= Z.min (Config.mNumThreads aConfig) (effective_iterations aConfig) /\
  exists duration m',
    render env aConfig (entry fb0) = Some (duration, m') /\
    scale_factors (history m')
    = [float_div float_one
         (float_of_int (Z.of_nat (length (used_instances (dispatched env aConfig k)))))].
Proof.
  intros Hk Hn Homp Hi.
  pose proof (conforming_threads _ _ _ Homp) as Hthreads.
  split; [|split].
  - intros j r Hj. eapply used_iff_scheduled; [apply prepared_unused|exact Hj].
  - apply used_count_bounds; [lia|done|done].
  - destruct (render_history env aConfig k fb0 Hk ltac:(lia) Hthreads)
      as (d & m' & pre & Hrun & _ & _ & Hhistory & Hpre & _).
    exists d, m'. split; [done|].
    rewrite Hhistory. unfold scale_factors. rewrite !omap_app.
    rewrite (omap_none _ pre); cycle 1.
    { eapply Forall_impl; [exact Hpre|]. by intros []. }
    rewrite (omap_none _ (merge_events _ _ _)); cycle 1.
    { eapply Forall_impl; [apply merge_events_calls|]. by intros []. }
    rewrite (omap_none _ (EvDelete <$> _)); cycle 1.
    { apply Forall_fmap, Forall_forall. done. }
    cbn. rewrite merge_loop_used; [done|done|].
    unfold dispatched. rewrite length_run_schedule, length_prepared. lia.
Qed.

(** X5.  In a run with at least one iteration the framebuffer [render]
    returns does not depend on what the caller's framebuffer held before:
    the first used instance's buffer replaces it. *)
Theorem render_overwrites_framebuffer env aConfig k fb0 fb0' :
  construction_of aConfig = Some k ->
  1 <= Config.mNumThreads aConfig <= INT_MAX ->
  omp_conforming env (Config.mNumThreads aConfig) (effective_iterations aConfig) ->
  1 <= effective_iterations aConfig ->
  exists duration m' m'',
    render env aConfig (entry fb0) = Some (duration, m') /\
    render env aConfig (entry fb0') = Some (duration, m'') /\
    mFramebuffer m' = mFramebuffer m''.
Proof.
  intros Hk Hn Homp Hi.
  pose proof (conforming_threads _ _ _ Homp) as Hthreads.
  pose proof (used_count_bounds env aConfig k ltac:(lia) Homp Hi) as Hcount.
  assert (Hlen : 0 + Z.of_nat (length (dispatched env aConfig k)) <= INT_MAX).
  { unfold dispatched. rewrite length_run_schedule, length_prepared. lia. }
  exists (elapsed (clock env (setup_history aConfig k))
            (clock env (setup_history aConfig k ++ [EvClock]
                          ++ (run_event <$> omp_schedule env (effective_iterations aConfig))))).
  eexists _, _. split_and!.
  - apply (render_run env aConfig k (entry fb0)); [done|lia|done].
  - apply (render_run env aConfig k (entry fb0')); [done|lia|done].
  - cbn [mFramebuffer entry].
    rewrite !merge_loop_used by (done || lia). cbn [fst snd Z.eqb].
    destruct (used_instances (dispatched env aConfig k)); [cbn in Hcount; lia|done].
Qed.

(** X6.  When [render] returns, every instance has been deleted exactly
    once, in slot order, as the last calls of the run, and the array is
    gone: nothing is deleted twice, left behind, or used after its
    deletion. *)
Theorem render_deletes_every_instance_once env aConfig k fb0 :
  construction_of aConfig = Some k ->
  0 <= Config.mNumThreads aConfig ->
  Forall (fun e : nat * Z => (e.1 < Z.to_nat (Config.mNumThreads aConfig))%nat)
         (omp_schedule env (effective_iterations aConfig)) ->
  exists duration m' before,
    render env aConfig (entry fb0) = Some (duration, m') /\
    renderers m' = [] /\
    history m' = before ++ (EvDelete <$> slots (Config.mNumThreads aConfig)) /\
    deleted_slots before = [] /\
    deleted_slots (history m') = slots (Config.mNumThreads aConfig) /\
    NoDup (deleted_slots (history m')).
Proof.
  intros Hk Hn Hthreads.
  destruct (render_history env aConfig k fb0 Hk Hn Hthreads)
    as (d & m' & pre & Hrun & Harray & _ & Hhistory & Hpre & _).
  assert (Hbefore : deleted_slots
            (pre ++ merge_events 0 (dispatched env aConfig k) 0
               ++ [EvScale (normalisation (merge_loop (dispatched env aConfig k) fb0 0).2)])
          = []).
  { unfold deleted_slots. rewrite !omap_app.
    rewrite (omap_none _ pre); cycle 1.
    { eapply Forall_impl; [exact Hpre|]. by intros []. }
    rewrite (omap_none _ (merge_events _ _ _)); cycle 1.
    { eapply Forall_impl; [apply merge_events_calls|]. by intros []. }
    done. }
  assert (Hdeleted : deleted_slots (history m') = slots (Config.mNumThreads aConfig)).
  { rewrite Hhistory, !app_assoc. unfold deleted_slots. rewrite omap_app.
    fold (deleted_slots ((pre ++ merge_events 0 (dispatched env aConfig k) 0)
            ++ [EvScale (normalisation (merge_loop (dispatched env aConfig k) fb0 0).2)])).
    rewrite <- app_assoc, Hbefore, app_nil_l.
    generalize (slots (Config.mNumThreads aConfig)). clear.
    intros l. induction l as [|i l IH]; cbn; [done|]. by rewrite IH. }
  exists d, m', (pre ++ merge_events 0 (dispatched env aConfig k) 0
                    ++ [EvScale (normalisation
                                   (merge_loop (dispatched env aConfig k) fb0 0).2)]).
  split_and!; [done|done| |done|done|].
  - rewrite Hhistory, <- !app_assoc. done.
  - rewrite Hdeleted. apply NoDup_seq.
Qed.

(** X7.  For every selector other than eye-light the parallel loop runs
    the configured number of iterations: [mIterations] calls when that is
    positive, and none when it is zero or negative, in which case no
    instance is used. *)
Theorem seeded_budget_is_the_configured_one env aConfig k fb0 :
  construction_of aConfig = Some k ->
  Config.mAlgorithm aConfig <> Config.kEyeLight ->
  0 <= Config.mNumThreads aConfig ->
  omp_conforming env (Config.mNumThreads aConfig) (Config.mIterations aConfig) ->
  exists duration m',
    render env aConfig (entry fb0) = Some (duration, m') /\
    run_calls (history m') = omp_schedule env (Config.mIterations aConfig) /\
    length (run_calls (history m')) = Z.to_nat (Config.mIterations aConfig) /\
    (Config.mIterations aConfig <= 0 ->
     run_calls (history m') = [] /\ used_instances (dispatched env aConfig k) = []).
Proof.
  intros Hk Halg Hn Homp.
  assert (Hits : effective_iterations aConfig = Config.mIterations aConfig).
  { unfold effective_iterations. by destruct (Config.mAlgorithm aConfig). }
  rewrite <- Hits in Homp.
  pose proof (conforming_threads _ _ _ Homp) as Hthreads.
  destruct (render_history env aConfig k fb0 Hk Hn Hthreads)
    as (d & m' & pre & Hrun & _ & _ & Hhistory & _ & Hcalls).
  assert (Hall : run_calls (history m') = omp_schedule env (effective_iterations aConfig)).
  { rewrite Hhistory, !run_calls_app, Hcalls, run_calls_merge_events.
    cbn. rewrite (run_calls_none (EvDelete <$> _)); [by rewrite app_nil_r|].
    apply Forall_fmap, Forall_forall. done. }
  exists d, m'. rewrite <- Hits. split_and!; [done|done| |].
  - rewrite Hall. by eapply conforming_length.
  - intros Hnone. rewrite Hall.
    split; [by eapply conforming_none|].
    apply (merge_loop_unused (dispatched env aConfig k) []).
    intros r Hr. by eapply no_iteration_no_used_instance.
Qed.

(** X8.  The merge loop asks every slot once whether it was used, calls
    [GetFramebuffer] exactly once on each used instance and on no other,
    and adds every extracted buffer but the first; then it scales once. *)
Theorem merge_reads_each_used_buffer_once env aConfig k fb0 :
  construction_of aConfig = Some k ->
  0 <= Config.mNumThreads aConfig <= INT_MAX ->
  Forall (fun e : nat * Z => (e.1 < Z.to_nat (Config.mNumThreads aConfig))%nat)
         (omp_schedule env (effective_iterations aConfig)) ->
  exists duration m',
    render env aConfig (entry fb0) = Some (duration, m') /\
    was_used_slots (history m') = slots (Config.mNumThreads aConfig) /\
    get_framebuffer_slots (history m') = used_slots 0 (dispatched env aConfig k) /\
    add_slots (history m') = tail (used_slots 0 (dispatched env aConfig k)) /\
    NoDup (get_framebuffer_slots (history m')) /\
    (forall i, i ∈ get_framebuffer_slots (history m') <->
       exists r, dispatched env aConfig k !! i = Some r /\
                 AbstractRenderer.WasUsed r = true) /\
    length (scale_factors (history m')) = 1%nat.
Proof.
  intros Hk Hn Hthreads.
  destruct (render_history env aConfig k fb0 Hk ltac:(lia) Hthreads)
    as (d & m' & pre & Hrun & _ & _ & Hhistory & Hpre & _).
  assert (Hlen : length (dispatched env aConfig k) = Z.to_nat (Config.mNumThreads aConfig)).
  { unfold dispatched. by rewrite length_run_schedule, length_prepared. }
  destruct (merge_events_observed (dispatched env aConfig k) 0%nat 0)
    as (Hw & Hg & Ha); [lia|lia|].
  assert (Hobs : forall (B : Type) (f : Event -> option B),
             (forall ev, is_merge_or_teardown_event ev = false -> f ev = None) ->
             (forall aScale, f (EvScale aScale) = None) ->
             (forall i, f (EvDelete i) = None) ->
             omap f (history m') = omap f (merge_events 0 (dispatched env aConfig k) 0)).
  { intros B f Hf Hs Hd. rewrite Hhistory, !omap_app.
    rewrite (omap_none f pre); cycle 1.
    { eapply Forall_impl; [exact Hpre|]. exact Hf. }
    rewrite (omap_none f (EvDelete <$> _)); cycle 1.
    { apply Forall_fmap, Forall_forall. intros i _. apply Hd. }
    cbn. rewrite Hs. by rewrite !app_nil_r. }
  assert (Hslots : forall rs i0 i,
             i ∈ used_slots i0 rs <->
             exists r, (i0 <= i)%nat /\ rs !! (i - i0)%nat = Some r /\
                       AbstractRenderer.WasUsed r = true).
  { induction rs as [|r rs IH]; intros i0 i; cbn [used_slots].
    - split; [by intros ?%elem_of_nil|by intros (? & _ & ? & _)].
    - assert (Hhere : i = i0 \/ i ∈ used_slots (S i0) rs <->
                      i = i0 \/ exists r', (i0 <= i)%nat /\
                                   (r :: rs) !! (i - i0)%nat = Some r' /\
                                   AbstractRenderer.WasUsed r' = true).
      { rewrite IH. split; (intros [->|(r' & Hle & Hr' & Hu)]; [by left|]).
        - right. exists r'. split; [lia|]. split; [|done].
          replace (i - i0)%nat with (S (i - S i0)) by lia. done.
        - destruct (decide (i = i0)) as [->|Hne]; [by left|].
          right. exists r'. split; [lia|]. split; [|done].
          replace (i - i0)%nat with (S (i - S i0)) in Hr' by lia. done. }
      destruct (AbstractRenderer.WasUsed r) eqn:Hr.
      + rewrite elem_of_cons, Hhere. split.
        * intros [->|H]; [|done]. exists r. rewrite Nat.sub_diag. done.
        * intros H. by right.
      + rewrite IH. split.
        * intros (r' & Hle & Hr' & Hu). exists r'. split; [lia|]. split; [|done].
          replace (i - i0)%nat with (S (i - S i0)) by lia. done.
        * intros (r' & Hle & Hr' & Hu).
          destruct (decide (i = i0)) as [->|Hne].
          { rewrite Nat.sub_diag in Hr'. cbn in Hr'. congruence. }
          exists r'. split; [lia|]. split; [|done].
          replace (i - i0)%nat with (S (i - S i0)) in Hr' by lia. done. }
  assert (Hnodup : forall rs i0, NoDup (used_slots i0 rs) /\
                                 forall i, i ∈ used_slots i0 rs -> (i0 <= i)%nat).
  { induction rs as [|r rs IH]; intros i0; cbn [used_slots].
    - split; [constructor|by intros ? ?%elem_of_nil].
    - destruct (IH (S i0)) as [IHn IHb].
      destruct (AbstractRenderer.WasUsed r).
      + split.
        * constructor; [|done]. intros Hin. apply IHb in Hin. lia.
        * intros i [->|Hin]%elem_of_cons; [lia|]. apply IHb in Hin. lia.
      + split; [done|]. intros i Hin. apply IHb in Hin. lia. }
  exists d, m'. split; [done|].
  unfold was_used_slots, get_framebuffer_slots, add_slots, scale_factors in *.
  rewrite !Hobs by (done || by intros []).
  rewrite Hw, Hg, Ha, Hlen. split_and!; [done|done|done|apply Hnodup| |].
  - intros i. rewrite Hslots, Nat.sub_0_r. split.
    + intros (r & _ & Hr & Hu). by exists r.
    + intros (r & Hr & Hu). exists r. split; [lia|done].
  - rewrite Hhistory, !omap_app.
    rewrite (omap_none _ pre); cycle 1.
    { eapply Forall_impl; [exact Hpre|]. by intros []. }
    rewrite (omap_none _ (merge_events _ _ _)); cycle 1.
    { eapply Forall_impl; [apply merge_events_calls|]. by intros []. }
    rewrite (omap_none _ (EvDelete <$> _)); cycle 1.
    { apply Forall_fmap, Forall_forall. done. }
    done.
Qed.

End Runs_observed.

(** * The driver [main] *)

Lemma int_wrap_is_int z : is_int (int_wrap z).
Proof.
  unfold is_int, INT_MIN, INT_MAX, int_wrap.
  pose proof (Z.mod_pos_bound (z + 2 ^ 31) (2 ^ 32) ltac:(lia)). lia.
Qed.

Lemma main_numThreads_bounds num_procs : 1 <= main_numThreads num_procs <= INT_MAX.
Proof.
  unfold main_numThreads, int_sub.
  pose proof (int_wrap_is_int (num_procs - 1)) as H.
  unfold is_int, INT_MIN, INT_MAX in *. lia.
Qed.

(** Whatever [omp_get_num_procs()] returns, [main] renders on at
    least one thread: on one thread less than there are processors when
    there are two or more, and on one thread otherwise. *)
Theorem main_uses_at_least_one_thread num_procs :
  1 <= main_numThreads num_procs <= INT_MAX /\
  (2 <= num_procs <= INT_MAX -> main_numThreads num_procs = num_procs - 1) /\
  (INT_MIN < num_procs <= 1 -> main_numThreads num_procs = 1).
Proof.
  split; [apply main_numThreads_bounds|].
  unfold main_numThreads, int_sub, INT_MIN, INT_MAX. split; intros Hp.
  - rewrite int_wrap_id by (unfold is_int, INT_MIN, INT_MAX; lia). lia.
  - rewrite int_wrap_id by (unfold is_int, INT_MIN, INT_MAX; lia). lia.
Qed.

Section MainProperties.
Context {flags : BoxMask}.

Lemma sweep_mask_glossy sceneId2 :
  0 <= sceneId2 ->
  exists sc,
    sceneConfigs !! Z.to_nat (sceneId_of sceneId2) = Some sc /\
    sweep_mask sceneId2 = Some (Z.lor (mMask sc) kGlossyFloor).
Proof.
  intros Hs. pose proof (sceneId_of_bounds sceneId2 Hs) as Hid.
  destruct (lookup_lt_is_Some_2 sceneConfigs (Z.to_nat (sceneId_of sceneId2)))
    as [sc Hsc].
  { rewrite sceneConfigCount_value in Hid. change (length sceneConfigs) with 12%nat. lia. }
  exists sc. split; [done|]. unfold sweep_mask. rewrite Hsc.
  by rewrite (proj2 (Z.ltb_lt _ _)) by lia.
Qed.

(** The inner body of [main], for an index of the algorithm loop. *)
Lemma main_step_rendered numThreads sceneId2 algId :
  0 <= sceneId2 ->
  0 <= algId < Config.value Config.kAlgorithmMax ->
  exists sc a name acronym,
    sceneConfigs !! Z.to_nat (sceneId_of sceneId2) = Some sc /\
    Algorithm_of_value algId = Some a /\
    Config.value a = algId /\
    Config.algorithmNames !! Z.to_nat algId = Some name /\
    Config.algorithmAcronyms !! Z.to_nat algId = Some acronym /\
    Config.GetName (main_config numThreads a) = Str name /\
    Config.GetAcronym (main_config numThreads a) = Str acronym /\
    main_step numThreads sceneId2 algId
    = Some (Rendered {| call_mask := Z.lor (mMask sc) kGlossyFloor;
                        call_heading := heading (Z.lor (mMask sc) kGlossyFloor) (mName sc);
                        call_config := main_config numThreads a;
                        call_name := name;
                        call_filename := mAcronym sc +:+ "_" +:+ acronym +:+ ".bmp" |}).
Proof.
  intros Hs Ha. destruct (sweep_mask_glossy sceneId2 Hs) as (sc & Hsc & Hmask).
  exists sc. unfold main_step. rewrite Hsc, Hmask.
  change (Config.value Config.kAlgorithmMax) with 7 in Ha.
  assert (Hcases : algId = 0 \/ algId = 1 \/ algId = 2 \/ algId = 3 \/
                   algId = 4 \/ algId = 5 \/ algId = 6) by lia.
  destruct Hcases as [->|[->|[->|[->|[->|[->| ->]]]]]];
    eexists _, _, _; split_and!; reflexivity.
Qed.

(** X9.  On every pass of the sweep and for every index below
    [kAlgorithmMax], the inner body of [main] renders (no algorithm is
    masked out) and reads every array within its bounds: the selector is one
    of the seven algorithms, never [kAlgorithmMax], so [GetName] and
    [GetAcronym] return the entries of their tables at that index. *)
Theorem main_reads_tables_within_bounds numThreads sceneId2 algId :
  0 <= sceneId2 < sceneConfigCount * 2 ->
  0 <= algId < Config.value Config.kAlgorithmMax ->
  exists c acronym,
    main_step numThreads sceneId2 algId = Some (Rendered c) /\
    Config.value (Config.mAlgorithm (call_config c)) = algId /\
    Config.mAlgorithm (call_config c) <> Config.kAlgorithmMax /\
    Config.GetName (call_config c) = Str (call_name c) /\
    Config.algorithmNames !! Z.to_nat algId = Some (call_name c) /\
    Config.GetAcronym (call_config c) = Str acronym /\
    Config.algorithmAcronyms !! Z.to_nat algId = Some acronym /\
    Config.mIterations (call_config c) = 10 /\
    Config.mNumThreads (call_config c) = numThreads.
Proof.
  intros Hs Ha.
  destruct (main_step_rendered numThreads sceneId2 algId ltac:(lia) Ha)
    as (sc & a & name & acronym & _ & _ & Hvalue & Hname & Hacr & Hgn & Hga & Hstep).
  eexists _, acronym. split; [exact Hstep|]. cbn.
  split_and!; try done.
  intros ->. cbn in Hvalue. change (Config.value Config.kAlgorithmMax) with 7 in Ha. lia.
Qed.

(** X10.  Pass [sceneId2 + sceneConfigCount] of the sweep repeats pass
    [sceneId2] in full, for every algorithm: the same scene mask, heading,
    configuration and image file name; the second half of the sweep renders
    the scenes of the first half again and writes over their files. *)
Theorem second_half_repeats_first_half numThreads sceneId2 algId :
  0 <= sceneId2 ->
  main_step numThreads (sceneId2 + sceneConfigCount) algId
  = main_step numThreads sceneId2 algId /\
  main_pass numThreads (sceneId2 + sceneConfigCount) = main_pass numThreads sceneId2.
Proof.
  intros Hs.
  assert (Hstep : forall a, main_step numThreads (sceneId2 + sceneConfigCount) a
                            = main_step numThreads sceneId2 a).
  { intros a. unfold main_step, sweep_mask.
    by rewrite sceneId_of_second_half by lia. }
  split; [apply Hstep|].
  unfold main_pass. apply list_fmap_ext. intros _ a _. apply Hstep.
Qed.

(** X11.  The sweep writes 168 images under 84 file names: the names of a
    half of the sweep are pairwise distinct, one for each pair of scene and
    algorithm, and the second half writes the names of the first again, in
    the same order. *)
Theorem sweep_writes_each_file_twice numThreads :
  exists half,
    main_filenames numThreads = half ++ half /\
    length half = 84%nat /\
    NoDup half.
Proof.
  exists (take 84 (main_filenames numThreads)).
  split_and!.
  - vm_compute. reflexivity.
  - vm_compute. reflexivity.
  - apply (bool_decide_unpack _). vm_compute. exact I.
Qed.

(** X12.  As long as the glossy-floor flag is not zero, every heading the
    sweep writes to the report is the glossy one: the plain heading of line
    232 is never written. *)
Theorem every_heading_is_glossy numThreads sceneId2 algId :
  kGlossyFloor <> 0 ->
  0 <= sceneId2 < sceneConfigCount * 2 ->
  0 <= algId < Config.value Config.kAlgorithmMax ->
  exists c sc,
    main_step numThreads sceneId2 algId = Some (Rendered c) /\
    sceneConfigs !! Z.to_nat (sceneId_of sceneId2) = Some sc /\
    call_heading c = "<h2> Glossy " +:+ mName sc +:+ "</h2>".
Proof.
  intros Hflag Hs Ha.
  destruct (main_step_rendered numThreads sceneId2 algId ltac:(lia) Ha)
    as (sc & a & name & acronym & Hsc & _ & _ & _ & _ & _ & _ & Hstep).
  eexists _, sc. split; [exact Hstep|]. split; [exact Hsc|].
  cbn [call_heading]. unfold heading. rewrite lor_keeps_flag.
  by rewrite (proj2 (Z.eqb_neq _ _)) by done.
Qed.

End MainProperties.

Section MainRenders.
Context {flags : BoxMask} {ext : Externals}.

(** X13.  Every call of [render] that [main] makes is a defined run
    with a positive divisor: whatever the processor count, the pass and the
    algorithm, the selector has a case in the [switch], one iteration (eye
    light) or ten (all others) are run, at least one instance ends up used,
    and the framebuffer saved to the image file is the aggregate over the
    used instances. *)
Theorem main_render_calls_are_sound num_procs sceneId2 algId env fb0 :
  0 <= sceneId2 < sceneConfigCount * 2 ->
  0 <= algId < Config.value Config.kAlgorithmMax ->
  omp_conforming env (main_numThreads num_procs) 1 ->
  omp_conforming env (main_numThreads num_procs) 10 ->
  exists c k duration m',
    main_step (main_numThreads num_procs) sceneId2 algId = Some (Rendered c) /\
    construction_of (call_config c) = Some k /\
    render env (call_config c) (entry fb0) = Some (duration, m') /\
    length (run_calls (history m')) = (if algId =? 0 then 1%nat else 10%nat) /\
    1 <= Z.of_nat (length (used_instances (dispatched env (call_config c) k))) /\
    inr (mFramebuffer m') = aggregate_spec (dispatched env (call_config c) k).
Proof.
  intros Hs Ha Hone Hten.
  set (W := main_numThreads num_procs) in *.
  pose proof (main_numThreads_bounds num_procs) as HW. fold W in HW.
  destruct (main_step_rendered W sceneId2 algId ltac:(lia) Ha)
    as (sc & a & name & acronym & _ & Halg & Hvalue & _ & _ & _ & _ & Hstep).
  set (config := main_config W a) in *.
  assert (Heff : effective_iterations config = if algId =? 0 then 1 else 10).
  { subst algId. by destruct a. }
  assert (Hcase : exists k, construction_of config = Some k).
  { change (Config.value Config.kAlgorithmMax) with 7 in Ha.
    destruct a; try (eexists; reflexivity). cbn in Hvalue. lia. }
  destruct Hcase as [k Hk].
  assert (Homp : omp_conforming env (Config.mNumThreads config)
                   (effective_iterations config)).
  { rewrite Heff. cbn [config main_config Config.mNumThreads]. by destruct (algId =? 0). }
  assert (Hpositive : 1 <= effective_iterations config).
  { rewrite Heff. destruct (algId =? 0); lia. }
  pose proof (conforming_threads _ _ _ Homp) as Hthreads.
  pose proof (used_count_bounds env config k ltac:(cbn; lia) Homp Hpositive) as Hcount.
  destruct (render_history env config k fb0 Hk ltac:(cbn; lia) Hthreads)
    as (d & m' & pre & Hrun & _ & Hfb & Hhistory & _ & Hcalls).
  eexists _, k, d, m'. split; [exact Hstep|]. cbn [call_config].
  split_and!; [done|done| |lia|].
  - rewrite Hhistory, !run_calls_app, Hcalls, run_calls_merge_events. cbn.
    rewrite (run_calls_none (EvDelete <$> _)); cycle 1.
    { apply Forall_fmap, Forall_forall. done. }
    rewrite app_nil_r, (conforming_length _ _ _ Homp), Heff.
    by destruct (algId =? 0).
  - rewrite Hfb.
    destruct (used_instances (dispatched env config k)) as [|first rest] eqn:HU;
      [cbn in Hcount; lia|].
    eapply merge_loop_aggregate; [|exact HU].
    unfold dispatched. rewrite length_run_schedule, length_prepared.
    cbn [config main_config Config.mNumThreads]. lia.
Qed.

End MainRenders.

(** * The further properties on concrete inputs *)

Lemma render_without_case_witness :
  render (cyclic 2) (sample_config Config.kAlgorithmMax 10) (entry [7; 7]%Q) = None.
Proof.
  apply (render_without_case (ext := rational)).
  - reflexivity.
  - cbn. lia.
Defined.

(** Three threads on an array of two: the third index goes to thread 2. *)
Lemma render_thread_outside_array_witness :
  render (cyclic 3) (sample_config Config.kPathTracing 4) (entry [7; 7]%Q) = None.
Proof.
  apply (render_thread_outside_array (ext := rational) (cyclic 3)
           (sample_config Config.kPathTracing 4) path_tracer_seeds).
  - reflexivity.
  - cbn. lia.
  - apply (bool_decide_unpack _). vm_compute. exact I.
Defined.

Lemma by_thread_in_range :
  Forall (fun e : nat * Z => (e.1 < Z.to_nat 2)%nat) (omp_schedule (by_thread 2) 4).
Proof. apply (bool_decide_unpack _). vm_compute. exact I. Qed.

(** Threads in turn (0,1,0,1) and threads one after the other (0,0,1,1). *)
Lemma dispatch_ignores_interleaving_witness :
  omp_schedule (cyclic 2) 4 <> omp_schedule (by_thread 2) 4 /\
  dispatched (cyclic 2) (sample_config Config.kPathTracing 4) path_tracer_seeds
  = dispatched (by_thread 2) (sample_config Config.kPathTracing 4) path_tracer_seeds /\
  exists duration duration' m' m'',
    render (cyclic 2) (sample_config Config.kPathTracing 4) (entry [7; 7]%Q)
    = Some (duration, m') /\
    render (by_thread 2) (sample_config Config.kPathTracing 4) (entry [7; 7]%Q)
    = Some (duration', m'') /\
    mFramebuffer m' = mFramebuffer m''.
Proof.
  split; [discriminate|].
  apply (dispatch_ignores_interleaving (ext := rational) (cyclic 2) (by_thread 2)
           (sample_config Config.kPathTracing 4) path_tracer_seeds).
  - reflexivity.
  - cbn. lia.
  - exact (conforming_threads _ _ _ (two_threads 4)).
  - exact by_thread_in_range.
  - intros [|[|j]]; reflexivity.
Defined.

Lemma used_instances_are_the_scheduled_threads_witness :
  1 <= Z.of_nat (length (used_instances
                           (dispatched (cyclic 2) (sample_config Config.kPathTracing 4)
                              path_tracer_seeds)))
    <= Z.min 2 4 /\
  exists duration m',
    render (cyclic 2) (sample_config Config.kPathTracing 4) (entry [7; 7]%Q)
    = Some (duration, m') /\
    scale_factors (history m') = [(1 # 2)%Q].
Proof.
  destruct (used_instances_are_the_scheduled_threads (ext := rational) (cyclic 2)
              (sample_config Config.kPathTracing 4) path_tracer_seeds [7; 7]%Q)
    as (_ & Hcount & d & m' & Hrun & Hscale).
  - reflexivity.
  - unfold INT_MAX. cbn. lia.
  - exact (two_threads 4).
  - cbn. lia.
  - split; [exact Hcount|]. exists d, m'. split; [exact Hrun|exact Hscale].
Defined.

Lemma render_overwrites_framebuffer_witness :
  exists duration m' m'',
    render (cyclic 2) (sample_config Config.kPathTracing 4) (entry [7; 7]%Q)
    = Some (duration, m') /\
    render (cyclic 2) (sample_config Config.kPathTracing 4) (entry [1; 1; 1]%Q)
    = Some (duration, m'') /\
    mFramebuffer m' = mFramebuffer m''.
Proof.
  apply (render_overwrites_framebuffer (ext := rational) (cyclic 2)
           (sample_config Config.kPathTracing 4) path_tracer_seeds).
  - reflexivity.
  - unfold INT_MAX. cbn. lia.
  - exact (two_threads 4).
  - cbn. lia.
Defined.

Lemma render_deletes_every_instance_once_witness :
  exists duration m' before,
    render (cyclic 2) (sample_config Config.kPathTracing 4) (entry [7; 7]%Q)
    = Some (duration, m') /\
    renderers m' = [] /\
    history m' = before ++ [EvDelete 0; EvDelete 1] /\
    deleted_slots before = [] /\
    deleted_slots (history m') = [0; 1]%nat /\
    NoDup (deleted_slots (history m')).
Proof.
  apply (render_deletes_every_instance_once (ext := rational) (cyclic 2)
           (sample_config Config.kPathTracing 4) path_tracer_seeds).
  - reflexivity.
  - cbn. lia.
  - exact (conforming_threads _ _ _ (two_threads 4)).
Defined.

Lemma seeded_budget_is_the_configured_one_witness :
  exists duration m',
    render (cyclic 2) (sample_config Config.kLightTracing (-2)) (entry [7; 7]%Q)
    = Some (duration, m') /\
    run_calls (history m') = [] /\
    length (run_calls (history m')) = 0%nat.
Proof.
  destruct (seeded_budget_is_the_configured_one (ext := rational) (cyclic 2)
              (sample_config Config.kLightTracing (-2))
              (fun i => VertexCM VertexCM.kLightTrace (int_add 1234 (Z.of_nat i)))
              [7; 7]%Q)
    as (d & m' & Hrun & Hcalls & Hlen & _).
  - reflexivity.
  - discriminate.
  - cbn. lia.
  - exact (two_threads (-2)).
  - exists d, m'. split_and!; [exact Hrun|exact Hcalls|exact Hlen].
Defined.

(** Three workers and two iterations dealt in turn: slots 0 and 1 are
    used, slot 2 is not. *)
Lemma merge_reads_each_used_buffer_once_witness :
  exists duration m',
    render (cyclic 3)
      {| Config.mAlgorithm := Config.kPathTracing;
         Config.mIterations := 2;
         Config.mNumThreads := 3;
         Config.mBaseSeed := 1234;
         Config.mMaxPathLength := 10 |}
      (entry [7; 7]%Q)
    = Some (duration, m') /\
    was_used_slots (history m') = [0; 1; 2]%nat /\
    get_framebuffer_slots (history m') = [0; 1]%nat /\
    add_slots (history m') = [1]%nat /\
    length (scale_factors (history m')) = 1%nat.
Proof.
  destruct (merge_reads_each_used_buffer_once (ext := rational) (cyclic 3)
              {| Config.mAlgorithm := Config.kPathTracing;
                 Config.mIterations := 2;
                 Config.mNumThreads := 3;
                 Config.mBaseSeed := 1234;
                 Config.mMaxPathLength := 10 |}
              path_tracer_seeds [7; 7]%Q)
    as (d & m' & Hrun & Hw & Hg & Ha & _ & _ & Hs).
  - reflexivity.
  - unfold INT_MAX. cbn. lia.
  - apply (bool_decide_unpack _). vm_compute. exact I.
  - exists d, m'. split_and!; [exact Hrun|exact Hw|exact Hg|exact Ha|exact Hs].
Defined.

Lemma main_reads_tables_within_bounds_witness :
  exists c acronym,
    @main_step sample_flags 2 17 3 = Some (Rendered c) /\
    Config.mAlgorithm (call_config c) <> Config.kAlgorithmMax /\
    Config.GetName (call_config c) = Str (call_name c) /\
    Config.GetAcronym (call_config c) = Str acronym /\
    Config.algorithmAcronyms !! 3%nat = Some acronym.
Proof.
  destruct (@main_reads_tables_within_bounds sample_flags 2 17 3)
    as (c & acronym & Hstep & _ & Hne & Hname & _ & Hacr & Htable & _).
  - unfold sceneConfigCount. cbn. lia.
  - cbn. lia.
  - exists c, acronym.
    split_and!; [exact Hstep|exact Hne|exact Hname|exact Hacr|exact Htable].
Defined.

Lemma second_half_repeats_first_half_witness :
  @main_step sample_flags 2 (5 + 12) 3 = @main_step sample_flags 2 5 3 /\
  @main_pass sample_flags 2 (5 + 12) = @main_pass sample_flags 2 5.
Proof.
  apply (@second_half_repeats_first_half sample_flags 2 5 3). lia.
Defined.

Lemma every_heading_is_glossy_witness :
  exists c sc,
    @main_step sample_flags 2 17 3 = Some (Rendered c) /\
    @sceneConfigs sample_flags !! 5%nat = Some sc /\
    call_heading c = "<h2> Glossy Small balls + Sun</h2>"%string.
Proof.
  destruct (@every_heading_is_glossy sample_flags 2 17 3)
    as (c & sc & Hstep & Hsc & Hheading).
  - discriminate.
  - unfold sceneConfigCount. cbn. lia.
  - cbn. lia.
  - exists c, sc. split_and!; [exact Hstep|exact Hsc|].
    rewrite Hheading. change (Z.to_nat (@sceneId_of sample_flags 17)) with 5%nat in Hsc.
    injection Hsc as <-. reflexivity.
Defined.

Lemma main_render_calls_are_sound_witness :
  exists c k duration m',
    @main_step sample_flags (main_numThreads 3) 17 3 = Some (Rendered c) /\
    construction_of (call_config c) = Some k /\
    render (cyclic 2) (call_config c) (entry [7; 7]%Q) = Some (duration, m') /\
    length (run_calls (history m')) = 10%nat /\
    1 <= Z.of_nat (length (used_instances (dispatched (cyclic 2) (call_config c) k))).
Proof.
  destruct (@main_render_calls_are_sound sample_flags rational 3 17 3 (cyclic 2) [7; 7]%Q)
    as (c & k & d & m' & Hstep & Hk & Hrun & Hcalls & Hused & _).
  - unfold sceneConfigCount. cbn. lia.
  - cbn. lia.
  - exact (two_threads 1).
  - exact (two_threads 10).
  - exists c, k, d, m'.
    split_and!; [exact Hstep|exact Hk|exact Hrun|exact Hcalls|exact Hused].
Defined.
